(** * memphis.js: the connection manager and the producer/consumer sessions

    A shallow embedding of [src/index.js].  The single-threaded event loop of
    Node is made explicit: the [Memphis] object, its control-plane socket, the
    pending timers, the promises handed out by [connect] and the suspended
    [await]s live in one [World]; every callback of the source is a function
    on worlds and [step] dispatches one event of the loop to the callbacks
    registered for it.  The collaborators of the file ([net], [nats],
    [httpRequest], [uuid], [console]) appear as the effects sent to them and
    as the events they send back. *)

From Stdlib Require Import ZArith List String Ascii Bool Lia DecimalString.
Import ListNotations.

Local Open Scope string_scope.
Local Open Scope Z_scope.

(* ------------------------------------------------------------------ *)
(** ** JavaScript values the file manipulates *)

Module Js.

(** Exceptions.  [Error] is the constructor the source calls itself; the
    next three are raised by the language (property of [undefined], call of
    a non-function, unbound identifier); [External] stands for an error
    object produced by a collaborator (the transport or the HTTP client). *)
Inductive exn : Type :=
| Error (message : string)
| TypeError (message : string)
| ReferenceError (message : string)
| External (tag : nat).

(** The dynamically typed values that flow through the connection fields
    and the request bodies. *)
Inductive value : Type :=
| Undefined
| Null
| Str (s : string)
| Num (z : Z)
| Bool (b : bool).

(** A promise is settled at most once. *)
Inductive promise : Type :=
| Pending
| Resolved
| Rejected (e : exn).

(** Result of running a piece of synchronous code. *)
Inductive completion (A : Type) : Type :=
| Normal (a : A)
| Throw (e : exn).
Arguments Normal {A} a.
Arguments Throw {A} e.

(** [s.startsWith(p)] *)
Definition startsWith (s p : string) : bool := prefix p s.

(** [s.split(sep)] for a non-empty separator: [skip] counts the characters
    of a separator just matched that are still to be passed over, [cur] is
    the piece being accumulated. *)
Fixpoint split_go (sep : string) (skip : nat) (cur s : string) : list string :=
  match skip with
  | S k =>
      match s with
      | EmptyString => [cur]
      | String _ s' => split_go sep k cur s'
      end
  | O =>
      match s with
      | EmptyString => [cur]
      | String c s' =>
          if prefix sep s
          then cur :: split_go sep (pred (String.length sep)) EmptyString s'
          else split_go sep O (cur ++ String c EmptyString) s'
      end
  end.

Definition split (s sep : string) : list string := split_go sep O EmptyString s.

(** [a[i]] read in a string context: an index out of range yields
    [undefined], printed as such. *)
Definition index (a : list string) (i : nat) : string := nth i a "undefined".

(** [sep] occurs somewhere in [s]. *)
Fixpoint occurs (sep s : string) : bool :=
  match s with
  | EmptyString => prefix sep EmptyString
  | String _ s' => prefix sep s || occurs sep s'
  end.

(** [c.toLowerCase()] on the ASCII range (bytes above 127 are left alone). *)
Definition lower_ascii (c : ascii) : ascii :=
  let n := N_of_ascii c in
  if ((65 <=? n) && (n <=? 90))%N then ascii_of_N (n + 32) else c.

Fixpoint toLowerCase (s : string) : string :=
  match s with
  | EmptyString => EmptyString
  | String c s' => String (lower_ascii c) (toLowerCase s')
  end.

(** Two names that differ in the case of their letters only. *)
Fixpoint same_modulo_case (s t : string) : bool :=
  match s, t with
  | EmptyString, EmptyString => true
  | String a s', String b t' =>
      Ascii.eqb (lower_ascii a) (lower_ascii b) && same_modulo_case s' t'
  | _, _ => false
  end.

(** An integer inside a template literal. *)
Definition number (z : Z) : string := NilZero.string_of_int (Z.to_int z).

(** A value inside a template literal or on the right of [string + _]. *)
Definition text (v : value) : string :=
  match v with
  | Undefined => "undefined"
  | Null => "null"
  | Str s => s
  | Num z => number z
  | Bool true => "true"
  | Bool false => "false"
  end.

(** A destructured parameter with a default: the default applies exactly
    when the property is [undefined]. *)
Definition default {A : Type} (d : A) (v : option A) : A :=
  match v with Some a => a | None => d end.

(** [v ? a : b] for a string [v]: the empty string is falsy. *)
Definition truthy (s : string) : bool :=
  match s with EmptyString => false | _ => true end.

End Js.

(* ------------------------------------------------------------------ *)
(** ** Host normalisation (index.js, 114-121) *)

Definition _normalizeHost (host : string) : string :=
  if Js.startsWith host "http://" then
    Js.index (Js.split host "http://") 1
  else if Js.startsWith host "https://" then
    Js.index (Js.split host "https://") 1
  else host.

(** What "stripping a leading scheme" means: the prefix is dropped and the
    rest is kept whole. *)
Fixpoint drop (n : nat) (s : string) : string :=
  match n, s with
  | O, _ => s
  | S _, EmptyString => EmptyString
  | S k, String _ s' => drop k s'
  end.

Definition strip_scheme (host : string) : string :=
  if prefix "http://" host then drop 7 host
  else if prefix "https://" host then drop 8 host
  else host.

(** [this._normalizeHost(host)] on an arbitrary argument: only a string has
    [startsWith]. *)
Definition call_normalizeHost (host : Js.value) : Js.completion string :=
  match host with
  | Js.Str s => Js.Normal (_normalizeHost s)
  | Js.Undefined | Js.Null =>
      Js.Throw (Js.TypeError "Cannot read properties of undefined (reading 'startsWith')")
  | Js.Num _ | Js.Bool _ =>
      Js.Throw (Js.TypeError "host.startsWith is not a function")
  end.

(* ------------------------------------------------------------------ *)
(** ** The control-plane socket ([net.Socket]) as this file uses it *)

Module Net.

(** What the file writes on the socket: the handshake (80-84) and the
    token refresh request (126-128). *)
Inductive payload : Type :=
| Handshake (username broker_creds connection_id : Js.value)
| ResendAccessToken.

(** What the control plane answers (87-90). *)
Record response : Type := {
  connection_id : Js.value;
  access_token : Js.value;
  access_token_exp : Z }.

(** The callback handed to [client.connect(port, host, cb)] (79-110): a
    closure over the [username] and [connectionToken] parameters and over
    [resolve]/[reject] of the promise under construction. *)
Record connectCallback : Type := {
  cb_promise : nat;
  cb_username : Js.value;
  cb_connectionToken : Js.value }.

(** The listeners attached to the socket.  A ['data'] listener is the
    handler of lines 86-109, identified by the promise it closes over;
    ['error'] and ['close'] carry the single handler of the constructor. *)
Record Socket : Type := {
  onceConnect : list connectCallback;
  onData : list nat;
  onError : bool;
  onClose : bool }.

Definition removeAllListeners (event : string) (s : Socket) : Socket :=
  if (event =? "data")%string then
    {| onceConnect := onceConnect s; onData := []; onError := onError s;
       onClose := onClose s |}
  else if (event =? "error")%string then
    {| onceConnect := onceConnect s; onData := onData s; onError := false;
       onClose := onClose s |}
  else if (event =? "close")%string then
    {| onceConnect := onceConnect s; onData := onData s; onError := onError s;
       onClose := false |}
  else if (event =? "connect")%string then
    {| onceConnect := []; onData := onData s; onError := onError s;
       onClose := onClose s |}
  else s.

Definition on_data (p : nat) (s : Socket) : Socket :=
  {| onceConnect := onceConnect s; onData := onData s ++ [p];
     onError := onError s; onClose := onClose s |}.

Definition once_connect (cb : connectCallback) (s : Socket) : Socket :=
  {| onceConnect := onceConnect s ++ [cb]; onData := onData s;
     onError := onError s; onClose := onClose s |}.

End Net.

(* ------------------------------------------------------------------ *)
(** ** The [Memphis] object (18-46) *)

Module Memphis.

Record obj : Type := {
  isConnectionActive : bool;
  connectionId : Js.value;
  accessToken : Js.value;
  host : Js.value;
  port : Z;
  username : Js.value;
  brokerHost : Js.value;
  brokerPort : Z;
  connectionToken : Js.value;
  accessTokenTimeout : option nat;
  client : Net.Socket;
  reconnectAttempts : Z;
  reconnect : bool;
  maxReconnect : Z;
  reconnectIntervalMs : Z;
  timeoutMs : Z;
  brokerConnection : option nat }.

(** [this.f = v] *)
Definition set_isConnectionActive (v : bool) (this : obj) : obj :=
  {| isConnectionActive := v; connectionId := connectionId this; accessToken
  := accessToken this; host := host this; port := port this; username :=
  username this; brokerHost := brokerHost this; brokerPort := brokerPort
  this; connectionToken := connectionToken this; accessTokenTimeout :=
  accessTokenTimeout this; client := client this; reconnectAttempts :=
  reconnectAttempts this; reconnect := reconnect this; maxReconnect :=
  maxReconnect this; reconnectIntervalMs := reconnectIntervalMs this;
  timeoutMs := timeoutMs this; brokerConnection := brokerConnection this |}.
Definition set_connectionId (v : Js.value) (this : obj) : obj :=
  {| isConnectionActive := isConnectionActive this; connectionId := v;
  accessToken := accessToken this; host := host this; port := port this;
  username := username this; brokerHost := brokerHost this; brokerPort :=
  brokerPort this; connectionToken := connectionToken this;
  accessTokenTimeout := accessTokenTimeout this; client := client this;
  reconnectAttempts := reconnectAttempts this; reconnect := reconnect this;
  maxReconnect := maxReconnect this; reconnectIntervalMs :=
  reconnectIntervalMs this; timeoutMs := timeoutMs this; brokerConnection :=
  brokerConnection this |}.
Definition set_accessToken (v : Js.value) (this : obj) : obj :=
  {| isConnectionActive := isConnectionActive this; connectionId :=
  connectionId this; accessToken := v; host := host this; port := port this;
  username := username this; brokerHost := brokerHost this; brokerPort :=
  brokerPort this; connectionToken := connectionToken this;
  accessTokenTimeout := accessTokenTimeout this; client := client this;
  reconnectAttempts := reconnectAttempts this; reconnect := reconnect this;
  maxReconnect := maxReconnect this; reconnectIntervalMs :=
  reconnectIntervalMs this; timeoutMs := timeoutMs this; brokerConnection :=
  brokerConnection this |}.
Definition set_host (v : Js.value) (this : obj) : obj :=
  {| isConnectionActive := isConnectionActive this; connectionId :=
  connectionId this; accessToken := accessToken this; host := v; port :=
  port this; username := username this; brokerHost := brokerHost this;
  brokerPort := brokerPort this; connectionToken := connectionToken this;
  accessTokenTimeout := accessTokenTimeout this; client := client this;
  reconnectAttempts := reconnectAttempts this; reconnect := reconnect this;
  maxReconnect := maxReconnect this; reconnectIntervalMs :=
  reconnectIntervalMs this; timeoutMs := timeoutMs this; brokerConnection :=
  brokerConnection this |}.
Definition set_port (v : Z) (this : obj) : obj :=
  {| isConnectionActive := isConnectionActive this; connectionId :=
  connectionId this; accessToken := accessToken this; host := host this;
  port := v; username := username this; brokerHost := brokerHost this;
  brokerPort := brokerPort this; connectionToken := connectionToken this;
  accessTokenTimeout := accessTokenTimeout this; client := client this;
  reconnectAttempts := reconnectAttempts this; reconnect := reconnect this;
  maxReconnect := maxReconnect this; reconnectIntervalMs :=
  reconnectIntervalMs this; timeoutMs := timeoutMs this; brokerConnection :=
  brokerConnection this |}.
Definition set_username (v : Js.value) (this : obj) : obj :=
  {| isConnectionActive := isConnectionActive this; connectionId :=
  connectionId this; accessToken := accessToken this; host := host this;
  port := port this; username := v; brokerHost := brokerHost this;
  brokerPort := brokerPort this; connectionToken := connectionToken this;
  accessTokenTimeout := accessTokenTimeout this; client := client this;
  reconnectAttempts := reconnectAttempts this; reconnect := reconnect this;
  maxReconnect := maxReconnect this; reconnectIntervalMs :=
  reconnectIntervalMs this; timeoutMs := timeoutMs this; brokerConnection :=
  brokerConnection this |}.
Definition set_brokerHost (v : Js.value) (this : obj) : obj :=
  {| isConnectionActive := isConnectionActive this; connectionId :=
  connectionId this; accessToken := accessToken this; host := host this;
  port := port this; username := username this; brokerHost := v; brokerPort
  := brokerPort this; connectionToken := connectionToken this;
  accessTokenTimeout := accessTokenTimeout this; client := client this;
  reconnectAttempts := reconnectAttempts this; reconnect := reconnect this;
  maxReconnect := maxReconnect this; reconnectIntervalMs :=
  reconnectIntervalMs this; timeoutMs := timeoutMs this; brokerConnection :=
  brokerConnection this |}.
Definition set_brokerPort (v : Z) (this : obj) : obj :=
  {| isConnectionActive := isConnectionActive this; connectionId :=
  connectionId this; accessToken := accessToken this; host := host this;
  port := port this; username := username this; brokerHost := brokerHost
  this; brokerPort := v; connectionToken := connectionToken this;
  accessTokenTimeout := accessTokenTimeout this; client := client this;
  reconnectAttempts := reconnectAttempts this; reconnect := reconnect this;
  maxReconnect := maxReconnect this; reconnectIntervalMs :=
  reconnectIntervalMs this; timeoutMs := timeoutMs this; brokerConnection :=
  brokerConnection this |}.
Definition set_connectionToken (v : Js.value) (this : obj) : obj :=
  {| isConnectionActive := isConnectionActive this; connectionId :=
  connectionId this; accessToken := accessToken this; host := host this;
  port := port this; username := username this; brokerHost := brokerHost
  this; brokerPort := brokerPort this; connectionToken := v;
  accessTokenTimeout := accessTokenTimeout this; client := client this;
  reconnectAttempts := reconnectAttempts this; reconnect := reconnect this;
  maxReconnect := maxReconnect this; reconnectIntervalMs :=
  reconnectIntervalMs this; timeoutMs := timeoutMs this; brokerConnection :=
  brokerConnection this |}.
Definition set_accessTokenTimeout (v : option nat) (this : obj) : obj :=
  {| isConnectionActive := isConnectionActive this; connectionId :=
  connectionId this; accessToken := accessToken this; host := host this;
  port := port this; username := username this; brokerHost := brokerHost
  this; brokerPort := brokerPort this; connectionToken := connectionToken
  this; accessTokenTimeout := v; client := client this; reconnectAttempts :=
  reconnectAttempts this; reconnect := reconnect this; maxReconnect :=
  maxReconnect this; reconnectIntervalMs := reconnectIntervalMs this;
  timeoutMs := timeoutMs this; brokerConnection := brokerConnection this |}.
Definition set_client (v : Net.Socket) (this : obj) : obj :=
  {| isConnectionActive := isConnectionActive this; connectionId :=
  connectionId this; accessToken := accessToken this; host := host this;
  port := port this; username := username this; brokerHost := brokerHost
  this; brokerPort := brokerPort this; connectionToken := connectionToken
  this; accessTokenTimeout := accessTokenTimeout this; client := v;
  reconnectAttempts := reconnectAttempts this; reconnect := reconnect this;
  maxReconnect := maxReconnect this; reconnectIntervalMs :=
  reconnectIntervalMs this; timeoutMs := timeoutMs this; brokerConnection :=
  brokerConnection this |}.
Definition set_reconnectAttempts (v : Z) (this : obj) : obj :=
  {| isConnectionActive := isConnectionActive this; connectionId :=
  connectionId this; accessToken := accessToken this; host := host this;
  port := port this; username := username this; brokerHost := brokerHost
  this; brokerPort := brokerPort this; connectionToken := connectionToken
  this; accessTokenTimeout := accessTokenTimeout this; client := client
  this; reconnectAttempts := v; reconnect := reconnect this; maxReconnect :=
  maxReconnect this; reconnectIntervalMs := reconnectIntervalMs this;
  timeoutMs := timeoutMs this; brokerConnection := brokerConnection this |}.
Definition set_reconnect (v : bool) (this : obj) : obj :=
  {| isConnectionActive := isConnectionActive this; connectionId :=
  connectionId this; accessToken := accessToken this; host := host this;
  port := port this; username := username this; brokerHost := brokerHost
  this; brokerPort := brokerPort this; connectionToken := connectionToken
  this; accessTokenTimeout := accessTokenTimeout this; client := client
  this; reconnectAttempts := reconnectAttempts this; reconnect := v;
  maxReconnect := maxReconnect this; reconnectIntervalMs :=
  reconnectIntervalMs this; timeoutMs := timeoutMs this; brokerConnection :=
  brokerConnection this |}.
Definition set_maxReconnect (v : Z) (this : obj) : obj :=
  {| isConnectionActive := isConnectionActive this; connectionId :=
  connectionId this; accessToken := accessToken this; host := host this;
  port := port this; username := username this; brokerHost := brokerHost
  this; brokerPort := brokerPort this; connectionToken := connectionToken
  this; accessTokenTimeout := accessTokenTimeout this; client := client
  this; reconnectAttempts := reconnectAttempts this; reconnect := reconnect
  this; maxReconnect := v; reconnectIntervalMs := reconnectIntervalMs this;
  timeoutMs := timeoutMs this; brokerConnection := brokerConnection this |}.
Definition set_reconnectIntervalMs (v : Z) (this : obj) : obj :=
  {| isConnectionActive := isConnectionActive this; connectionId :=
  connectionId this; accessToken := accessToken this; host := host this;
  port := port this; username := username this; brokerHost := brokerHost
  this; brokerPort := brokerPort this; connectionToken := connectionToken
  this; accessTokenTimeout := accessTokenTimeout this; client := client
  this; reconnectAttempts := reconnectAttempts this; reconnect := reconnect
  this; maxReconnect := maxReconnect this; reconnectIntervalMs := v;
  timeoutMs := timeoutMs this; brokerConnection := brokerConnection this |}.
Definition set_timeoutMs (v : Z) (this : obj) : obj :=
  {| isConnectionActive := isConnectionActive this; connectionId :=
  connectionId this; accessToken := accessToken this; host := host this;
  port := port this; username := username this; brokerHost := brokerHost
  this; brokerPort := brokerPort this; connectionToken := connectionToken
  this; accessTokenTimeout := accessTokenTimeout this; client := client
  this; reconnectAttempts := reconnectAttempts this; reconnect := reconnect
  this; maxReconnect := maxReconnect this; reconnectIntervalMs :=
  reconnectIntervalMs this; timeoutMs := v; brokerConnection :=
  brokerConnection this |}.
Definition set_brokerConnection (v : option nat) (this : obj) : obj :=
  {| isConnectionActive := isConnectionActive this; connectionId :=
  connectionId this; accessToken := accessToken this; host := host this;
  port := port this; username := username this; brokerHost := brokerHost
  this; brokerPort := brokerPort this; connectionToken := connectionToken
  this; accessTokenTimeout := accessTokenTimeout this; client := client
  this; reconnectAttempts := reconnectAttempts this; reconnect := reconnect
  this; maxReconnect := maxReconnect this; reconnectIntervalMs :=
  reconnectIntervalMs this; timeoutMs := timeoutMs this; brokerConnection :=
  v |}.

(** [new Memphis()] *)
Definition constructor : obj :=
  {| isConnectionActive := false;
     connectionId := Js.Null;
     accessToken := Js.Null;
     host := Js.Null;
     port := 9000;
     username := Js.Null;
     brokerHost := Js.Null;
     brokerPort := 7766;
     connectionToken := Js.Null;
     accessTokenTimeout := None;
     client := {| Net.onceConnect := []; Net.onData := [];
                  Net.onError := true; Net.onClose := true |};
     reconnectAttempts := 0;
     reconnect := true;
     maxReconnect := 3;
     reconnectIntervalMs := 200;
     timeoutMs := 15000;
     brokerConnection := None |}.

(** The methods of the class. *)
Definition methods : list string :=
  [ "connect"; "_normalizeHost"; "_keepAcessTokenFresh"; "factory";
    "station"; "producer"; "consumer"; "_close"; "close" ].

End Memphis.

(** The argument object of [connect] as the callee sees it: any property may
    be absent. *)
Module Options.
Record t : Type := {
  host : Js.value;
  port : option Z;
  username : Js.value;
  brokerHost : Js.value;
  brokerPort : option Z;
  connectionToken : Js.value;
  reconnect : option bool;
  maxReconnect : option Z;
  reconnectIntervalMs : option Z;
  timeoutMs : option Z }.
End Options.

(** The argument object an application passes, typed as documented (50-59):
    the four strings are present, the rest is optional. *)
Module Config.
Record t : Type := {
  host : string;
  port : option Z;
  username : string;
  brokerHost : string;
  brokerPort : option Z;
  connectionToken : string;
  reconnect : option bool;
  maxReconnect : option Z;
  reconnectIntervalMs : option Z;
  timeoutMs : option Z }.

Definition to_options (c : t) : Options.t :=
  {| Options.host := Js.Str (host c);
     Options.port := port c;
     Options.username := Js.Str (username c);
     Options.brokerHost := Js.Str (brokerHost c);
     Options.brokerPort := brokerPort c;
     Options.connectionToken := Js.Str (connectionToken c);
     Options.reconnect := reconnect c;
     Options.maxReconnect := maxReconnect c;
     Options.reconnectIntervalMs := reconnectIntervalMs c;
     Options.timeoutMs := timeoutMs c |}.
End Config.

(* ------------------------------------------------------------------ *)
(** ** The event loop around the connection manager *)

(** What a pending timer will run.  [ConnectTimeout] is the arrow function of
    lines 63-66: it closes over [reconnect], [maxReconnect] (the parameters,
    before capping) and [reject].  [Reconnect] is the callback of 265-282 and
    [RefreshToken] the one of 124-129; both read [this] when they run. *)
Inductive action : Type :=
| ConnectTimeout (p : nat) (reconnect : bool) (maxReconnect : Z)
| Reconnect
| RefreshToken.

Record timer : Type := {
  timer_id : nat;
  delay : Z;
  todo : action }.

(** The object given to [broker.connect] (95-102). *)
Record broker_options : Type := {
  servers : string;
  bo_reconnect : bool;
  maxReconnectAttempts : Z;
  reconnectTimeWait : Z;
  timeout : Z;
  token : Js.value }.

Inductive effect : Type :=
| SocketConnect (port : Z) (host : string)
| SocketWrite (data : Net.payload)
| SocketDestroy
| BrokerConnect (options : broker_options)
| ConsoleLog (line : string)
| ConsoleError (line : string).

(** [promises] is indexed by promise identifier; [connecting] lists the data
    handlers suspended at [await broker.connect] and [reconnecting] the
    reconnect callbacks suspended at [await this.connect]; [trace] records
    the calls made to the collaborators, oldest first. *)
Record World : Type := {
  memphis : Memphis.obj;
  timers : list timer;
  nextTimer : nat;
  promises : list Js.promise;
  connecting : list nat;
  reconnecting : list nat;
  trace : list effect }.

Definition set_memphis (v : Memphis.obj) (w : World) : World :=
  {| memphis := v; timers := timers w; nextTimer := nextTimer w; promises :=
  promises w; connecting := connecting w; reconnecting := reconnecting w;
  trace := trace w |}.
Definition set_timers (v : list timer) (w : World) : World :=
  {| memphis := memphis w; timers := v; nextTimer := nextTimer w; promises
  := promises w; connecting := connecting w; reconnecting := reconnecting w;
  trace := trace w |}.
Definition set_nextTimer (v : nat) (w : World) : World :=
  {| memphis := memphis w; timers := timers w; nextTimer := v; promises :=
  promises w; connecting := connecting w; reconnecting := reconnecting w;
  trace := trace w |}.
Definition set_promises (v : list Js.promise) (w : World) : World :=
  {| memphis := memphis w; timers := timers w; nextTimer := nextTimer w;
  promises := v; connecting := connecting w; reconnecting := reconnecting w;
  trace := trace w |}.
Definition set_connecting (v : list nat) (w : World) : World :=
  {| memphis := memphis w; timers := timers w; nextTimer := nextTimer w;
  promises := promises w; connecting := v; reconnecting := reconnecting w;
  trace := trace w |}.
Definition set_reconnecting (v : list nat) (w : World) : World :=
  {| memphis := memphis w; timers := timers w; nextTimer := nextTimer w;
  promises := promises w; connecting := connecting w; reconnecting := v;
  trace := trace w |}.
Definition set_trace (v : list effect) (w : World) : World :=
  {| memphis := memphis w; timers := timers w; nextTimer := nextTimer w;
  promises := promises w; connecting := connecting w; reconnecting :=
  reconnecting w; trace := v |}.

Definition this (f : Memphis.obj -> Memphis.obj) (w : World) : World :=
  set_memphis (f (memphis w)) w.

Definition perform (e : effect) (w : World) : World :=
  set_trace (trace w ++ [e]) w.

(** [setTimeout(f, delay)] *)
Definition setTimeout (f : action) (ms : Z) (w : World) : World * nat :=
  let id := nextTimer w in
  (set_nextTimer (S id)
     (set_timers (timers w ++ [{| timer_id := id; delay := ms; todo := f |}]) w),
   id).

(** [clearTimeout(h)]: a handle that is [null] or stale clears nothing. *)
Definition clearTimeout (h : option nat) (w : World) : World :=
  match h with
  | None => w
  | Some id =>
      set_timers (filter (fun t => negb (Nat.eqb (timer_id t) id)) (timers w)) w
  end.

Fixpoint settle_nth (p : nat) (s : Js.promise) (l : list Js.promise)
  : list Js.promise :=
  match l, p with
  | [], _ => []
  | Js.Pending :: l', O => s :: l'
  | x :: l', O => x :: l'
  | x :: l', S p' => x :: settle_nth p' s l'
  end.

Definition state_of (p : nat) (w : World) : Js.promise :=
  nth p (promises w) Js.Pending.

(** The continuation of [await this.connect(...)] in the reconnect callback
    (277-281), run once the awaited promise is settled. *)
Definition after_reconnect (s : Js.promise) (w : World) : World :=
  match s with
  | Js.Pending => w
  | Js.Resolved =>
      perform (ConsoleLog "Reconnect to memphis control plane has been succeeded") w
  | Js.Rejected _ =>
      perform (ConsoleError "Failed reconnect to memphis control plane") w
  end.

(** [resolve()] and [reject(e)]: only the first call on a promise counts. *)
Definition settle (p : nat) (s : Js.promise) (w : World) : World :=
  match state_of p w with
  | Js.Pending =>
      let w := set_promises (settle_nth p s (promises w)) w in
      if existsb (Nat.eqb p) (reconnecting w)
      then after_reconnect s
             (set_reconnecting
                (filter (fun q => negb (Nat.eqb q p)) (reconnecting w)) w)
      else w
  | _ => w
  end.

Definition resolve (p : nat) : World -> World := settle p Js.Resolved.
Definition reject (p : nat) (e : Js.exn) : World -> World :=
  settle p (Js.Rejected e).

(** [_keepAcessTokenFresh(expiresIn)] (123-130) *)
Definition _keepAcessTokenFresh (expiresIn : Z) (w : World) : World :=
  let (w, id) := setTimeout RefreshToken expiresIn w in
  this (Memphis.set_accessTokenTimeout (Some id)) w.

(** [connect({...})] (61-112).  The executor of the promise runs at once; an
    exception inside it rejects the promise and abandons the rest. *)
Definition connect (o : Options.t) (w : World) : World * nat :=
  let port := Js.default 9000 (Options.port o) in
  let brokerPort := Js.default 7766 (Options.brokerPort o) in
  let reconnect := Js.default true (Options.reconnect o) in
  let maxReconnect := Js.default 3 (Options.maxReconnect o) in
  let reconnectIntervalMs := Js.default 200 (Options.reconnectIntervalMs o) in
  let timeoutMs := Js.default 15000 (Options.timeoutMs o) in
  let p := List.length (promises w) in
  let w := set_promises (promises w ++ [Js.Pending]) w in
  let w := fst (setTimeout (ConnectTimeout p reconnect maxReconnect) timeoutMs w) in
  match call_normalizeHost (Options.host o) with
  | Js.Throw e => (reject p e w, p)
  | Js.Normal h =>
      let w := this (Memphis.set_host (Js.Str (h ++ "/tcp"))) w in
      match call_normalizeHost (Options.brokerHost o) with
      | Js.Throw e => (reject p e w, p)
      | Js.Normal b =>
          let w := this (Memphis.set_brokerHost (Js.Str b)) w in
          let w := this (Memphis.set_port port) w in
          let w := this (Memphis.set_brokerPort brokerPort) w in
          let w := this (Memphis.set_username (Options.username o)) w in
          let w := this (Memphis.set_connectionToken (Options.connectionToken o)) w in
          let w := this (Memphis.set_reconnect reconnect) w in
          let w := this (Memphis.set_maxReconnect
                           (if 9 <? maxReconnect then 9 else maxReconnect)) w in
          let w := this (Memphis.set_reconnectIntervalMs reconnectIntervalMs) w in
          let w := this (Memphis.set_timeoutMs timeoutMs) w in
          let w := perform (SocketConnect port (h ++ "/tcp")) w in
          let w := this (fun m => Memphis.set_client
                     (Net.once_connect
                        {| Net.cb_promise := p;
                           Net.cb_username := Options.username o;
                           Net.cb_connectionToken := Options.connectionToken o |}
                        (Memphis.client m)) m) w in
          (w, p)
      end
  end.

(** The connect callback (79-110): sends the handshake and starts listening
    for the answer. *)
Definition on_connect (cb : Net.connectCallback) (w : World) : World :=
  let w := perform (SocketWrite
                      (Net.Handshake (Net.cb_username cb)
                                     (Net.cb_connectionToken cb)
                                     (Memphis.connectionId (memphis w)))) w in
  this (fun m => Memphis.set_client
                   (Net.on_data (Net.cb_promise cb) (Memphis.client m)) m) w.

(** The ['data'] handler (86-109) up to its [await]. *)
Definition on_data (data : Net.response) (p : nat) (w : World) : World :=
  let w := this (Memphis.set_connectionId (Net.connection_id data)) w in
  let w := this (Memphis.set_accessToken (Net.access_token data)) w in
  let w := _keepAcessTokenFresh (Net.access_token_exp data) w in
  let w := this (Memphis.set_isConnectionActive true) w in
  let w := this (Memphis.set_reconnectAttempts 0) w in
  let m := memphis w in
  let w := perform (BrokerConnect
    {| servers := Js.text (Memphis.brokerHost m) ++ ":"
                    ++ Js.number (Memphis.brokerPort m);
       bo_reconnect := Memphis.reconnect m;
       maxReconnectAttempts :=
         if Memphis.reconnect m then Memphis.maxReconnect m else 0;
       reconnectTimeWait := Memphis.reconnectIntervalMs m;
       timeout := Memphis.timeoutMs m;
       token := Memphis.connectionToken m |}) w in
  set_connecting (connecting w ++ [p]) w.

(** The rest of the ['data'] handler, after [broker.connect] settled:
    [inl nc] is the connection obtained (104-105), [inr ex] the exception
    caught (106-107). *)
Definition after_broker_connect (r : nat + Js.exn) (p : nat) (w : World) : World :=
  match r with
  | inl nc => resolve p (this (Memphis.set_brokerConnection (Some nc)) w)
  | inr ex => reject p ex w
  end.

(** The object literal of lines 267-276. *)
Definition reconnect_options (m : Memphis.obj) : Options.t :=
  {| Options.host := Memphis.host m;
     Options.port := Some (Memphis.port m);
     Options.username := Memphis.username m;
     Options.brokerHost := Js.Undefined;
     Options.brokerPort := None;
     Options.connectionToken := Memphis.connectionToken m;
     Options.reconnect := Some (Memphis.reconnect m);
     Options.maxReconnect := Some (Memphis.maxReconnect m);
     Options.reconnectIntervalMs := Some (Memphis.reconnectIntervalMs m);
     Options.timeoutMs := Some (Memphis.timeoutMs m) |}.

(** [_close()] (262-296) *)
Definition _close (w : World) : World :=
  let m := memphis w in
  if Memphis.reconnect m && (Memphis.reconnectAttempts m <? Memphis.maxReconnect m)
  then
    let w := this (Memphis.set_reconnectAttempts (Memphis.reconnectAttempts m + 1)) w in
    fst (setTimeout Reconnect (Memphis.reconnectIntervalMs (memphis w)) w)
  else
    let w := this (fun m => Memphis.set_client
               (Net.removeAllListeners "data" (Memphis.client m)) m) w in
    let w := this (fun m => Memphis.set_client
               (Net.removeAllListeners "error" (Memphis.client m)) m) w in
    let w := this (fun m => Memphis.set_client
               (Net.removeAllListeners "close" (Memphis.client m)) m) w in
    let w := perform SocketDestroy w in
    let w := clearTimeout (Memphis.accessTokenTimeout (memphis w)) w in
    let w := this (Memphis.set_accessToken Js.Null) w in
    let w := this (Memphis.set_connectionId Js.Null) w in
    let w := this (Memphis.set_isConnectionActive false) w in
    let w := this (Memphis.set_accessTokenTimeout None) w in
    this (Memphis.set_reconnectAttempts 0) w.

(** [close()] (301-312) *)
Definition close (w : World) : World :=
  let w := this (fun m => Memphis.set_client
             (Net.removeAllListeners "data" (Memphis.client m)) m) w in
  let w := this (fun m => Memphis.set_client
             (Net.removeAllListeners "error" (Memphis.client m)) m) w in
  let w := this (fun m => Memphis.set_client
             (Net.removeAllListeners "close" (Memphis.client m)) m) w in
  let w := perform SocketDestroy w in
  let w := clearTimeout (Memphis.accessTokenTimeout (memphis w)) w in
  let w := this (Memphis.set_accessToken Js.Null) w in
  let w := this (Memphis.set_connectionId Js.Null) w in
  let w := this (Memphis.set_isConnectionActive false) w in
  let w := this (Memphis.set_accessTokenTimeout None) w in
  this (Memphis.set_reconnectAttempts 0) w.

(** The ['close'] handler of the constructor (42-45). *)
Definition on_close (w : World) : World :=
  _close (this (Memphis.set_isConnectionActive false) w).

(** The error of line 65. *)
Definition ConnectionTimeout : Js.exn := Js.Error "Connection timeout has reached".

(** The timeout of [connect] (63-66). *)
Definition on_timeout (p : nat) (reconnect : bool) (maxReconnect : Z) (w : World)
  : World :=
  let m := memphis w in
  if negb reconnect
     || (Memphis.reconnectAttempts m =? maxReconnect)
     || negb (Memphis.isConnectionActive m)
  then reject p ConnectionTimeout w
  else w.

(** The reconnect callback (265-282): calls [connect] and awaits it. *)
Definition on_reconnect (w : World) : World :=
  let (w, p) := connect (reconnect_options (memphis w)) w in
  match state_of p w with
  | Js.Pending => set_reconnecting (reconnecting w ++ [p]) w
  | s => after_reconnect s w
  end.

(** The refresh callback (124-129). *)
Definition on_refresh (w : World) : World :=
  if Memphis.isConnectionActive (memphis w)
  then perform (SocketWrite Net.ResendAccessToken) w
  else w.

Definition run_timer (t : timer) (w : World) : World :=
  match todo t with
  | ConnectTimeout p reconnect maxReconnect => on_timeout p reconnect maxReconnect w
  | Reconnect => on_reconnect w
  | RefreshToken => on_refresh w
  end.

(** What the loop can deliver.  The first two are calls of the application,
    the others come from the socket, the clock and the transport.
    [Connected] runs the callbacks given to [client.connect], which are
    detached as they run.  [Data None] is a chunk that [JSON.parse] refuses:
    each handler throws before it touches anything.  [SocketError] makes the
    handler of line 38 print the error.  [Fired id] runs a pending timer,
    at any moment: delays are recorded, not measured.  [BrokerConnected k nc]
    and [BrokerFailed k ex] settle the [k]-th pending [broker.connect]. *)
Inductive event : Type :=
| AppConnect (c : Config.t)
| AppClose
| Connected
| Data (d : option Net.response)
| SocketError
| Closed
| Fired (id : nat)
| BrokerConnected (k : nat) (nc : nat)
| BrokerFailed (k : nat) (ex : Js.exn).

Fixpoint remove_nth {A : Type} (k : nat) (l : list A) : list A :=
  match l, k with
  | [], _ => []
  | _ :: l', O => l'
  | x :: l', S k' => x :: remove_nth k' l'
  end.

Definition settle_broker (k : nat) (r : nat + Js.exn) (w : World) : World :=
  match nth_error (connecting w) k with
  | None => w
  | Some p => after_broker_connect r p (set_connecting (remove_nth k (connecting w)) w)
  end.

Definition step (e : event) (w : World) : World :=
  match e with
  | AppConnect c => fst (connect (Config.to_options c) w)
  | AppClose => close w
  | Connected =>
      let cbs := Net.onceConnect (Memphis.client (memphis w)) in
      let w := this (fun m => Memphis.set_client
                 (Net.removeAllListeners "connect" (Memphis.client m)) m) w in
      fold_left (fun w cb => on_connect cb w) cbs w
  | Data None => w
  | Data (Some d) =>
      fold_left (fun w p => on_data d p w) (Net.onData (Memphis.client (memphis w))) w
  | SocketError =>
      if Net.onError (Memphis.client (memphis w))
      then perform (ConsoleError "error") w else w
  | Closed =>
      if Net.onClose (Memphis.client (memphis w)) then on_close w else w
  | Fired id =>
      match find (fun t => Nat.eqb (timer_id t) id) (timers w) with
      | None => w
      | Some t =>
          run_timer t
            (set_timers (filter (fun t => negb (Nat.eqb (timer_id t) id)) (timers w)) w)
      end
  | BrokerConnected k nc => settle_broker k (inl nc) w
  | BrokerFailed k ex => settle_broker k (inr ex) w
  end.

Fixpoint run (es : list event) (w : World) : World :=
  match es with
  | [] => w
  | e :: es' => run es' (step e w)
  end.

(** The states met along a run, the starting one excluded. *)
Fixpoint states (es : list event) (w : World) : list World :=
  match es with
  | [] => []
  | e :: es' => step e w :: states es' (step e w)
  end.

(** [module.exports()]: a fresh manager in an idle loop. *)
Definition init : World :=
  {| memphis := Memphis.constructor;
     timers := [];
     nextTimer := O;
     promises := [];
     connecting := [];
     reconnecting := [];
     trace := [] |}.

Definition reachable (w : World) : Prop := exists es, w = run es init.

(* ------------------------------------------------------------------ *)
(** ** Collaborators of the sessions *)

(** The two objects of the program a [connection] field can hold: the
    [Memphis] instance itself and the JetStream client it keeps in
    [brokerConnection] (104). *)
Inductive object : Type :=
| MemphisInstance
| JetStreamClient.

(** Whether [o.name] is a function.  For the instance these are the methods
    of the class; for the JetStream client, the part of the [nats] interface
    the sessions address. *)
Definition responds_to (o : object) (name : string) : bool :=
  match o with
  | MemphisInstance => existsb (String.eqb name) Memphis.methods
  | JetStreamClient => existsb (String.eqb name) ["publish"; "pullSubscribe"]
  end.

(** [o.property] for the string-valued fields. *)
Definition read (o : object) (m : Memphis.obj) (property : string) : Js.value :=
  match o with
  | MemphisInstance =>
      if (property =? "connectionId")%string then Memphis.connectionId m
      else if (property =? "accessToken")%string then Memphis.accessToken m
      else if (property =? "host")%string then Memphis.host m
      else if (property =? "username")%string then Memphis.username m
      else if (property =? "brokerHost")%string then Memphis.brokerHost m
      else if (property =? "connectionToken")%string then Memphis.connectionToken m
      else Js.Undefined
  | JetStreamClient => Js.Undefined
  end.

(** A method call [o.name(args)]: the arguments are already evaluated; a
    callee that is not a function throws, otherwise the call goes to [o]. *)
Record call (A : Type) : Type := {
  receiver : object;
  method : string;
  arguments : A }.
Arguments receiver {A} c.
Arguments method {A} c.
Arguments arguments {A} c.

Definition invoke {A : Type} (o : object) (name : string) (args : A)
  : Js.completion (call A) :=
  if responds_to o name
  then Js.Normal {| receiver := o; method := name; arguments := args |}
  else Js.Throw (Js.TypeError ("this.connection." ++ name ++ " is not a function")).

(** The identifiers bound in the module: the five [require]s (1-5), the two
    constant tables (7, 13) and the six classes. *)
Definition module_scope : list string :=
  [ "net"; "events"; "broker"; "uuidv4"; "httpRequest";
    "retentionTypes"; "storageTypes";
    "Memphis"; "Producer"; "Consumer"; "Message"; "Factory"; "Station" ].

(** The globals of Node the file refers to. *)
Definition globals : list string :=
  [ "require"; "module"; "console"; "JSON"; "Promise"; "Error";
    "setTimeout"; "clearTimeout"; "setInterval"; "clearInterval" ].

(** Reading an identifier in a scope: an unbound one is a [ReferenceError]. *)
Definition lookup {A : Type} (scope : list string) (name : string) (v : A)
  : Js.completion A :=
  if existsb (String.eqb name) scope then Js.Normal v
  else Js.Throw (Js.ReferenceError (name ++ " is not defined")).

(** [httpRequest({method, url, headers, bodyParams})]; [bodyParams] keeps the
    order of the literal. *)
Module Http.
Record request : Type := {
  method : string;
  url : string;
  Authorization : string;
  bodyParams : list (string * Js.value) }.

Record response : Type := { name : string }.

Definition client : Type := request -> Js.completion response.
End Http.

(** [events.EventEmitter]: the listeners in the order they were added. *)
Module Events.
Definition EventEmitter : Type := list (string * nat).

Definition on (event : string) (listener : nat) (e : EventEmitter) : EventEmitter :=
  (e ++ [(event, listener)])%list.

Definition listeners (event : string) (e : EventEmitter) : list nat :=
  map snd (filter (fun x => (fst x =? event)%string) e).

Definition removeAllListeners (event : string) (e : EventEmitter) : EventEmitter :=
  filter (fun x => negb (fst x =? event)%string) e.

(** [e.emit(event, arg)]: the listeners of [event] are called in order with
    [arg]; the result lists the calls made. *)
Definition emit {A : Type} (event : string) (arg : A) (e : EventEmitter)
  : list (nat * A) :=
  map (fun l => (l, arg)) (listeners event e).

(** [e.emit("error", err)]: without a listener the error is thrown. *)
Definition emit_error (err : Js.exn) (e : EventEmitter)
  : Js.completion (list (nat * Js.exn)) :=
  match listeners "error" e with
  | [] => Js.Throw err
  | _ => Js.Normal (emit "error" err e)
  end.
End Events.

(* ------------------------------------------------------------------ *)
(** ** Producer (315-355) *)

Module Producer.

Record t : Type := {
  connection : object;
  producerName : string;
  stationName : string }.

Definition constructor (connection : object) (producerName stationName : string) : t :=
  {| connection := connection;
     producerName := Js.toLowerCase producerName;
     stationName := Js.toLowerCase stationName |}.

(** [this.property] for a property that is not [connection] or a method:
    the two names set by the constructor, [undefined] for any other. *)
Definition get (this : t) (property : string) : Js.value :=
  if (property =? "producerName")%string then Js.Str (producerName this)
  else if (property =? "stationName")%string then Js.Str (stationName this)
  else Js.Undefined.

(** The subject a producer publishes to: the template of line 329. *)
Definition final_subject (this : t) : string :=
  (stationName this ++ ".final")%string.

Record publish_options : Type := { msgID : string; ackWait : Z }.

Record publication : Type := {
  subject : string;
  data : string;
  options : publish_options }.

(** [produce({message, ackWaitSec = 15})] (327-333); [uuid] is what
    [uuidv4()] returns for this call.  The [catch] rethrows. *)
Definition produce (this : t) (message : string) (ackWaitSec : option Z)
           (uuid : string) : Js.completion (call publication) :=
  let ackWaitSec := Js.default 15 ackWaitSec in
  invoke (connection this) "publish"
    {| subject := final_subject this;
       data := message;
       options := {| msgID := uuid; ackWait := ackWaitSec * 1000 * 1000 |} |}.

(** The request sent by [destroy()] (338-354). *)
Definition destroy (this : t) (m : Memphis.obj) : Http.request :=
  {| Http.method := "POST";
     Http.url := "http://" ++ Js.text (read (connection this) m "host")
                   ++ "/api/producers/destroyProducer";
     Http.Authorization :=
       "Bearer " ++ Js.text (read (connection this) m "accessToken");
     Http.bodyParams :=
       [ ("name", get this "consumerName");
         ("station_name", get this "stationName") ] |}.

End Producer.

(* ------------------------------------------------------------------ *)
(** ** Message (414-425) *)

Module Message.
(** [message] is the delivery object of the transport, opaque here. *)
Record t : Type := { message : nat }.

Definition constructor (message : nat) : t := {| message := message |}.

(** [ack()] forwards to the delivery: the result names the delivery
    acknowledged. *)
Definition ack (this : t) : nat := message this.
End Message.

(* ------------------------------------------------------------------ *)
(** ** Consumer (357-412) *)

Module Consumer.

(** [eventEmitter] is the emitter created on line 366.  Line 367 stores the
    function [EventEmitter.prototype.on] in the field [on]: called as
    [consumer.on(event, listener)] it runs with the consumer as receiver
    and keeps its listeners on the consumer object, in [_events]. *)
Record t : Type := {
  connection : object;
  stationName : string;
  consumerName : string;
  consumerGroup : string;
  pullIntervalMs : Z;
  batchSize : Z;
  batchMaxTimeToWaitMs : Z;
  eventEmitter : Events.EventEmitter;
  _events : Events.EventEmitter;
  pullInterval : option nat }.

(** Lines 359-368. *)
Definition fields (connection : object)
           (stationName consumerName consumerGroup : string)
           (pullIntervalMs batchSize batchMaxTimeToWaitMs : Z) : t :=
  {| connection := connection;
     stationName := Js.toLowerCase stationName;
     consumerName := Js.toLowerCase consumerName;
     consumerGroup := Js.toLowerCase consumerGroup;
     pullIntervalMs := pullIntervalMs;
     batchSize := batchSize;
     batchMaxTimeToWaitMs := batchMaxTimeToWaitMs;
     eventEmitter := [];
     _events := [];
     pullInterval := None |}.

(** The subject a consumer subscribes to: the template of line 370. *)
Definition final_subject (this : t) : string :=
  (stationName this ++ ".final")%string.

Record subscription : Type := {
  subject : string;
  mack : bool;
  durable_name : string;
  ack_wait : Z }.

(** [nanos(4000)] of the transport library: milliseconds to nanoseconds. *)
Definition nanos (ms : Z) : Z := ms * 1000000.

(** The call of lines 370-375: the arguments first, then the callee. *)
Definition subscribe (scope : list string) (this : t)
  : Js.completion (call subscription) :=
  match lookup scope "nanos" (nanos 4000) with
  | Js.Throw e => Js.Throw e
  | Js.Normal ack_wait =>
      invoke (connection this) "pullSubscribe"
        {| subject := final_subject this;
           mack := true;
           durable_name :=
             if Js.truthy (consumerGroup this)
             then consumerGroup this else consumerName this;
           ack_wait := ack_wait |}
  end.

(** [new Consumer(...)] (358-387) with the identifiers of [scope] bound:
    the object and the subscription requested, on which [then] and [catch]
    are chained, or the exception that leaves the constructor. *)
Definition constructor_in (scope : list string) (connection : object)
           (stationName consumerName consumerGroup : string)
           (pullIntervalMs batchSize batchMaxTimeToWaitMs : Z)
  : Js.completion (t * call subscription) :=
  let this := fields connection stationName consumerName consumerGroup
                     pullIntervalMs batchSize batchMaxTimeToWaitMs in
  match subscribe scope this with
  | Js.Throw e => Js.Throw e
  | Js.Normal s => Js.Normal (this, s)
  end.

Definition constructor := constructor_in (module_scope ++ globals).

(** [consumer.on(event, listener)], the field set on line 367. *)
Definition on (event : string) (listener : nat) (this : t) : t :=
  {| connection := connection this;
     stationName := stationName this;
     consumerName := consumerName this;
     consumerGroup := consumerGroup this;
     pullIntervalMs := pullIntervalMs this;
     batchSize := batchSize this;
     batchMaxTimeToWaitMs := batchMaxTimeToWaitMs this;
     eventEmitter := eventEmitter this;
     _events := Events.on event listener (_events this);
     pullInterval := pullInterval this |}.



(** The loop of lines 382-384 over the deliveries [ms] of the
    subscription: the listener calls made, in order. *)
Fixpoint deliver (this : t) (ms : list nat) : list (nat * Message.t) :=
  match ms with
  | [] => []
  | m :: ms' =>
      Events.emit "message" (Message.constructor m) (eventEmitter this)
        ++ deliver this ms'
  end.

(** The [catch] callback (386). *)
Definition failed (this : t) (error : Js.exn)
  : Js.completion (list (nat * Js.exn)) :=
  Events.emit_error error (eventEmitter this).

(** The request sent by [destroy()] (392-411), after the listeners of the
    emitter are removed and the interval is cleared. *)
Definition destroy (this : t) (m : Memphis.obj) : t * option nat * Http.request :=
  ({| connection := connection this;
      stationName := stationName this;
      consumerName := consumerName this;
      consumerGroup := consumerGroup this;
      pullIntervalMs := pullIntervalMs this;
      batchSize := batchSize this;
      batchMaxTimeToWaitMs := batchMaxTimeToWaitMs this;
      eventEmitter :=
        Events.removeAllListeners "error"
          (Events.removeAllListeners "message" (eventEmitter this));
      _events := _events this;
      pullInterval := pullInterval this |},
   pullInterval this,
   {| Http.method := "POST";
      Http.url := "http://" ++ Js.text (read (connection this) m "host")
                    ++ "/api/consumers/destroyConsumer";
      Http.Authorization :=
        "Bearer " ++ Js.text (read (connection this) m "accessToken");
      Http.bodyParams :=
        [ ("name", Js.Str (consumerName this));
          ("station_name", Js.Str (stationName this)) ] |}).

End Consumer.

(* ------------------------------------------------------------------ *)
(** ** Factory (427-452) and Station (454-479) *)

Module Factory.
Record t : Type := { connection : object; name : string }.

Definition constructor (connection : object) (name : string) : t :=
  {| connection := connection; name := Js.toLowerCase name |}.

Definition destroy (this : t) (m : Memphis.obj) : Http.request :=
  {| Http.method := "POST";
     Http.url := "http://" ++ Js.text (read (connection this) m "host")
                   ++ "/api/factories/removeFactory";
     Http.Authorization :=
       "Bearer " ++ Js.text (read (connection this) m "accessToken");
     Http.bodyParams := [ ("factory_name", Js.Str (name this)) ] |}.
End Factory.

Module Station.
Record t : Type := { connection : object; name : string }.

Definition constructor (connection : object) (name : string) : t :=
  {| connection := connection; name := Js.toLowerCase name |}.

Definition destroy (this : t) (m : Memphis.obj) : Http.request :=
  {| Http.method := "POST";
     Http.url := "http://" ++ Js.text (read (connection this) m "host")
                   ++ "/api/stations/removeStation";
     Http.Authorization :=
       "Bearer " ++ Js.text (read (connection this) m "accessToken");
     Http.bodyParams := [ ("station_name", Js.Str (name this)) ] |}.
End Station.

(* ------------------------------------------------------------------ *)
(** ** The resource methods of [Memphis] (137-260) *)

Definition retentionTypes_MAX_MESSAGE_AGE_SECONDS : string := "message_age_sec".
Definition retentionTypes_MESSAGES : string := "messages".
Definition retentionTypes_BYTES : string := "bytes".
Definition storageTypes_FILE : string := "file".
Definition storageTypes_MEMORY : string := "memory".

Definition post (m : Memphis.obj) (path : string) (body : list (string * Js.value))
  : Http.request :=
  {| Http.method := "POST";
     Http.url := "http://" ++ Js.text (Memphis.host m) ++ ":"
                   ++ Js.number (Memphis.port m) ++ path;
     Http.Authorization := "Bearer " ++ Js.text (Memphis.accessToken m);
     Http.bodyParams := body |}.

(** An [async] method that checks the connection, awaits one request and
    builds its result from the answer. *)
Definition guarded {A : Type} (m : Memphis.obj) (http : Http.client)
           (req : Http.request) (k : Http.response -> Js.completion A)
  : Js.completion A :=
  if negb (Memphis.isConnectionActive m)
  then Js.Throw (Js.Error "Connection is dead")
  else match http req with
       | Js.Throw ex => Js.Throw ex
       | Js.Normal response => k response
       end.

Definition factory_request (m : Memphis.obj) (name description : string) : Http.request :=
  post m "/api/factories/createFactory"
       [ ("name", Js.Str name); ("description", Js.Str description) ].

(** [factory({name, description = EmptyString})] (137-155) *)
Definition factory (m : Memphis.obj) (http : Http.client)
           (name : string) (description : option string)
  : Js.completion Factory.t :=
  guarded m http (factory_request m name (Js.default EmptyString description))
    (fun response =>
       Js.Normal (Factory.constructor MemphisInstance (Http.name response))).

Definition station_request (m : Memphis.obj) (name factoryName retentionType : string)
           (retentionValue : Z) (storageType : string) (replicas : Z)
           (dedupEnabled : bool) (dedupWindowMs : Z) : Http.request :=
  post m "/api/stations/createStation"
       [ ("name", Js.Str name);
         ("factory_name", Js.Str factoryName);
         ("retention_type", Js.Str retentionType);
         ("retention_value", Js.Num retentionValue);
         ("storage_type", Js.Str storageType);
         ("replicas", Js.Num replicas);
         ("dedup_enabled", Js.Bool dedupEnabled);
         ("dedup_window_in_ms", Js.Num dedupWindowMs) ].

(** [station({...})] (168-195) *)
Definition station (m : Memphis.obj) (http : Http.client)
           (name factoryName : string) (retentionType : option string)
           (retentionValue : option Z) (storageType : option string)
           (replicas : option Z) (dedupEnabled : option bool)
           (dedupWindowMs : option Z)
  : Js.completion Station.t :=
  guarded m http
    (station_request m name factoryName
       (Js.default retentionTypes_MAX_MESSAGE_AGE_SECONDS retentionType)
       (Js.default 604800 retentionValue)
       (Js.default storageTypes_FILE storageType)
       (Js.default 1 replicas)
       (Js.default false dedupEnabled)
       (Js.default 0 dedupWindowMs))
    (fun response =>
       Js.Normal (Station.constructor MemphisInstance (Http.name response))).

Definition producer_request (m : Memphis.obj) (stationName producerName : string)
  : Http.request :=
  post m "/api/producers/createProducer"
       [ ("name", Js.Str producerName);
         ("station_name", Js.Str stationName);
         ("connection_id", Memphis.connectionId m);
         ("producer_type", Js.Str "application") ].

(** [producer({stationName, producerName})] (202-225) *)
Definition producer (m : Memphis.obj) (http : Http.client)
           (stationName producerName : string)
  : Js.completion Producer.t :=
  guarded m http (producer_request m stationName producerName)
    (fun _ => Js.Normal (Producer.constructor MemphisInstance producerName stationName)).

Definition consumer_request (m : Memphis.obj)
           (stationName consumerName consumerGroup : string) : Http.request :=
  post m "/api/consumers/createConsumer"
       [ ("name", Js.Str consumerName);
         ("station_name", Js.Str stationName);
         ("connection_id", Memphis.connectionId m);
         ("consumer_type", Js.Str "application");
         ("consumers_group", Js.Str consumerGroup) ].

(** [consumer({...})] (236-260) *)
Definition consumer (m : Memphis.obj) (http : Http.client)
           (stationName consumerName : string) (consumerGroup : option string)
           (pullIntervalMs batchSize batchMaxTimeToWaitMs : option Z)
  : Js.completion (Consumer.t * call Consumer.subscription) :=
  guarded m http
    (consumer_request m stationName consumerName (Js.default EmptyString consumerGroup))
    (fun _ =>
       Consumer.constructor MemphisInstance stationName consumerName
         (Js.default EmptyString consumerGroup)
         (Js.default 1000 pullIntervalMs)
         (Js.default 10 batchSize)
         (Js.default 5000 batchMaxTimeToWaitMs)).


(* ------------------------------------------------------------------ *)
(** ** Vocabulary of the statements *)

(** The counter of reconnect attempts and the cap it is compared with. *)
Definition counter (w : World) : Z := Memphis.reconnectAttempts (memphis w).
Definition limit (w : World) : Z := Memphis.maxReconnect (memphis w).

Definition inactive (w : World) : Prop :=
  Memphis.isConnectionActive (memphis w) = false.

(** The timer armed on line 63 by a call [connect o] made in world [w]. *)
Definition timeout_timer (o : Options.t) (w : World) : timer :=
  {| timer_id := nextTimer w;
     delay := Js.default 15000 (Options.timeoutMs o);
     todo := ConnectTimeout (List.length (promises w))
                            (Js.default true (Options.reconnect o))
                            (Js.default 3 (Options.maxReconnect o)) |}.

(** Every timer and promise a world refers to has been allocated: the
    identifiers are below [nextTimer] and below the number of promises. *)
Definition timer_ok (nt np : nat) (t : timer) : Prop :=
  (timer_id t < nt)%nat
  /\ match todo t with
     | ConnectTimeout q _ _ => (q < np)%nat
     | _ => True
     end.

Definition well_formed (w : World) : Prop :=
  let nt := nextTimer w in
  let np := List.length (promises w) in
  Forall (timer_ok nt np) (timers w)
  /\ (forall id, Memphis.accessTokenTimeout (memphis w) = Some id -> (id < nt)%nat)
  /\ Forall (fun q => (q < np)%nat) (connecting w)
  /\ Forall (fun q => (q < np)%nat) (Net.onData (Memphis.client (memphis w)))
  /\ Forall (fun cb => (Net.cb_promise cb < np)%nat)
            (Net.onceConnect (Memphis.client (memphis w))).

(** The promise [p] of a call waits for its timeout [T], of identifier [t]:
    it is pending, no suspended handler will settle it, the timer is armed
    and is the only one that can reject [p], and the refresh handle is
    another timer. *)
Definition waiting (p t : nat) (T : timer) (w : World) : Prop :=
  (p < List.length (promises w))%nat
  /\ state_of p w = Js.Pending
  /\ ~ In p (connecting w)
  /\ (t < nextTimer w)%nat
  /\ In T (timers w)
  /\ (forall x, In x (timers w) ->
                timer_id x = t \/ (exists r m, todo x = ConnectTimeout p r m) ->
                x = T)
  /\ Memphis.accessTokenTimeout (memphis w) <> Some t.

(** Whether event [e], delivered in world [w], makes a call of [connect]: a
    call of the application, or a reconnect timer that fires. *)
Definition calls_connect (e : event) (w : World) : bool :=
  match e with
  | AppConnect _ => true
  | Fired id =>
      match find (fun t => Nat.eqb (timer_id t) id) (timers w) with
      | Some {| todo := Reconnect |} => true
      | _ => false
      end
  | _ => false
  end.

(** A run during which [connect] is not called. *)
Fixpoint without_connect (es : list event) (w : World) : Prop :=
  match es with
  | [] => True
  | e :: es' => calls_connect e w = false /\ without_connect es' (step e w)
  end.

(** Sample inputs. *)
Definition local_config : Config.t :=
  {| Config.host := "http://localhost";
     Config.port := None;
     Config.username := "app";
     Config.brokerHost := "localhost";
     Config.brokerPort := None;
     Config.connectionToken := "memphis";
     Config.reconnect := None;
     Config.maxReconnect := None;
     Config.reconnectIntervalMs := None;
     Config.timeoutMs := None |}.

Definition zero_config : Config.t :=
  {| Config.host := "http://localhost";
     Config.port := None;
     Config.username := "app";
     Config.brokerHost := "localhost";
     Config.brokerPort := None;
     Config.connectionToken := "memphis";
     Config.reconnect := None;
     Config.maxReconnect := Some 0;
     Config.reconnectIntervalMs := None;
     Config.timeoutMs := None |}.

Definition granted : Net.response :=
  {| Net.connection_id := Js.Str "c-1";
     Net.access_token := Js.Str "jwt";
     Net.access_token_exp := 60000 |}.

(** Whether the scheme a host starts with occurs a second time in it. *)
Definition scheme_recurs (host : string) : bool :=
  if prefix "http://" host then Js.occurs "http://" (drop 7 host)
  else if prefix "https://" host then Js.occurs "https://" (drop 8 host)
  else false.

(** A control plane that accepts every request and names the resource
    [created]. *)
Definition accepting (created : string) : Http.client :=
  fun _ => Js.Normal {| Http.name := created |}.

(** A control plane that refuses every request with error [ex]. *)
Definition refusing (ex : Js.exn) : Http.client := fun _ => Js.Throw ex.

Definition is_socket_connect (e : effect) : bool :=
  match e with SocketConnect _ _ => true | _ => false end.

(** [n] refresh timers of delay [exp], numbered from [first]. *)
Definition refresh_timers (first : nat) (exp : Z) (n : nat) : list timer :=
  map (fun id => {| timer_id := id; delay := exp; todo := RefreshToken |})
      (seq first n).

(** [n] reconnect timers of delay [ms], numbered from [first]. *)
Definition reconnect_timers (first : nat) (ms : Z) (n : nat) : list timer :=
  map (fun id => {| timer_id := id; delay := ms; todo := Reconnect |})
      (seq first n).


(* ================================================================== *)
(** * Properties *)

(* ------------------------------------------------------------------ *)
(** ** Strings *)

Section StringFacts.

Lemma append_empty_r (s : string) : (s ++ EmptyString)%string = s.
Proof. induction s as [|c s IH]; simpl; [reflexivity | now rewrite IH]. Qed.

Lemma append_assoc (s t u : string) :
  ((s ++ t) ++ u)%string = (s ++ (t ++ u))%string.
Proof. induction s as [|c s IH]; simpl; [reflexivity | now rewrite IH]. Qed.

(** Without an occurrence of the separator nothing is cut. *)
Lemma split_go_whole (sep : string) :
  forall s cur, Js.occurs sep s = false ->
                Js.split_go sep O cur s = [(cur ++ s)%string].
Proof.
  induction s as [|c s IH]; intros cur H.
  - simpl. now rewrite append_empty_r.
  - cbn [Js.occurs] in H. apply orb_false_iff in H as [Hp Ho].
    cbn [Js.split_go]. rewrite Hp, (IH _ Ho), append_assoc. reflexivity.
Qed.

(** The characters of a matched separator are passed over. *)
Lemma split_go_skip (sep : string) :
  forall t cur r,
    Js.split_go sep (String.length t) cur (t ++ r) = Js.split_go sep O cur r.
Proof.
  induction t as [|c t IH]; intros cur r; simpl; [reflexivity | apply IH].
Qed.

Lemma prefix_append (p r : string) : prefix p (p ++ r) = true.
Proof.
  induction p as [|a p IH]; simpl; [now destruct r|].
  destruct (ascii_dec a a); [exact IH | contradiction].
Qed.

Lemma http_is_not_https (r : string) :
  prefix "http://" ("https://" ++ r) = false.
Proof.
  reflexivity.
Qed.

Lemma lower_ascii_idempotent (c : ascii) :
  Js.lower_ascii (Js.lower_ascii c) = Js.lower_ascii c.
Proof. destruct c as [[] [] [] [] [] [] [] []]; reflexivity. Qed.

Lemma toLowerCase_idempotent (s : string) :
  Js.toLowerCase (Js.toLowerCase s) = Js.toLowerCase s.
Proof.
  induction s as [|c s IH]; simpl; [reflexivity|].
  now rewrite lower_ascii_idempotent, IH.
Qed.

(** Lower-casing identifies exactly the names that differ by case. *)
Lemma toLowerCase_same_modulo_case (s t : string) :
  Js.same_modulo_case s t = true <-> Js.toLowerCase s = Js.toLowerCase t.
Proof.
  revert t; induction s as [|a s IH]; intros [|b t]; simpl;
    try (split; [reflexivity || discriminate | reflexivity || discriminate]).
  rewrite andb_true_iff, Ascii.eqb_eq, IH. split.
  - intros [-> ->]. reflexivity.
  - intros H. injection H. auto.
Qed.

End StringFacts.

(** A string that starts with [p] is [p] followed by what [drop] leaves. *)
Lemma prefix_drop (p : string) :
  forall h, prefix p h = true -> h = (p ++ drop (String.length p) h)%string.
Proof.
  induction p as [|a p IH]; intros h H; [reflexivity|].
  destruct h as [|b h]; [discriminate H|]. cbn in H |- *.
  destruct (ascii_dec a b) as [->|]; [|discriminate H].
  f_equal. now apply IH.
Qed.

(** On a host without scheme, and on a host whose scheme is followed by text
    in which that scheme does not occur again, [_normalizeHost] is
    [strip_scheme]. *)
Lemma _normalizeHost_plain (host : string) :
  prefix "http://" host = false -> prefix "https://" host = false ->
  _normalizeHost host = host.
Proof.
  intros H1 H2. unfold _normalizeHost, Js.startsWith. now rewrite H1, H2.
Qed.

Lemma _normalizeHost_http (rest : string) :
  Js.occurs "http://" rest = false ->
  _normalizeHost ("http://" ++ rest) = rest.
Proof.
  intros H. unfold _normalizeHost, Js.startsWith, Js.split.
  rewrite prefix_append.
  change ("http://" ++ rest)%string with (String "h" ("ttp://" ++ rest)) at 1.
  cbn [Js.split_go].
  change (String "h" ("ttp://" ++ rest)) with ("http://" ++ rest)%string.
  rewrite prefix_append.
  change (pred (String.length "http://")) with (String.length "ttp://").
  rewrite split_go_skip, (split_go_whole _ _ _ H). reflexivity.
Qed.

Lemma _normalizeHost_https (rest : string) :
  Js.occurs "https://" rest = false ->
  _normalizeHost ("https://" ++ rest) = rest.
Proof.
  intros H. unfold _normalizeHost, Js.startsWith, Js.split.
  rewrite http_is_not_https, prefix_append.
  change ("https://" ++ rest)%string with (String "h" ("ttps://" ++ rest)) at 1.
  cbn [Js.split_go].
  change (String "h" ("ttps://" ++ rest)) with ("https://" ++ rest)%string.
  rewrite prefix_append.
  change (pred (String.length "https://")) with (String.length "ttps://").
  rewrite split_go_skip, (split_go_whole _ _ _ H). reflexivity.
Qed.

(** Where the leading scheme does not occur again, [_normalizeHost] is
    [strip_scheme]. *)
Lemma _normalizeHost_strip (host : string) :
  scheme_recurs host = false -> _normalizeHost host = strip_scheme host.
Proof.
  intros H. unfold scheme_recurs, strip_scheme in *.
  destruct (prefix "http://" host) eqn:E1.
  - rewrite (prefix_drop _ _ E1) at 1. now apply _normalizeHost_http.
  - destruct (prefix "https://" host) eqn:E2.
    + rewrite (prefix_drop _ _ E2) at 1. now apply _normalizeHost_https.
    + now apply _normalizeHost_plain.
Qed.

(** The one place where the two part: a scheme that occurs a second time
    cuts the host short. *)
Example _normalizeHost_cuts_at_second_scheme :
  _normalizeHost "http://a/http://b" = "a/"%string
  /\ strip_scheme "http://a/http://b" = "a/http://b"%string.
Proof. split; reflexivity. Qed.

(* ------------------------------------------------------------------ *)
(** ** Sessions *)

(** A handle made by [producer] holds the [Memphis] instance, and its names
    are those of the application. *)
Lemma producer_handle (m : Memphis.obj) (http : Http.client)
      (stationName producerName : string) (p : Producer.t) :
  producer m http stationName producerName = Js.Normal p ->
  p = Producer.constructor MemphisInstance producerName stationName.
Proof.
  unfold producer, guarded.
  destruct (negb (Memphis.isConnectionActive m)); [discriminate|].
  destruct (http _); [|discriminate].
  intros H. injection H as <-. reflexivity.
Qed.

(** A handle made by [factory] or [station] is named after the answer of the
    control plane. *)
Lemma factory_handle (m : Memphis.obj) (http : Http.client)
      (name : string) (description : option string) (f : Factory.t) :
  factory m http name description = Js.Normal f ->
  exists response,
    http (factory_request m name (Js.default EmptyString description)) = Js.Normal response
    /\ f = Factory.constructor MemphisInstance (Http.name response).
Proof.
  unfold factory, guarded.
  destruct (negb (Memphis.isConnectionActive m)); [discriminate|].
  destruct (http _) as [response|]; [|discriminate].
  intros H. injection H as <-. now exists response.
Qed.

Lemma station_handle (m : Memphis.obj) (http : Http.client)
      (name factoryName : string) rt rv st rp de dw (s : Station.t) :
  station m http name factoryName rt rv st rp de dw = Js.Normal s ->
  exists response,
    http (station_request m name factoryName
            (Js.default retentionTypes_MAX_MESSAGE_AGE_SECONDS rt)
            (Js.default 604800 rv) (Js.default storageTypes_FILE st)
            (Js.default 1 rp) (Js.default false de) (Js.default 0 dw))
    = Js.Normal response
    /\ s = Station.constructor MemphisInstance (Http.name response).
Proof.
  unfold station, guarded.
  destruct (negb (Memphis.isConnectionActive m)); [discriminate|].
  destruct (http _) as [response|]; [|discriminate].
  intros H. injection H as <-. now exists response.
Qed.

(** C8 as stated fails for factories and stations: the handle is named
    after the answer of the control plane, not after the caller.  Here the
    caller asks for [BILLING] and the control plane answers [Other]. *)
Lemma factory_stores_the_answer :
  let m := Memphis.set_isConnectionActive true Memphis.constructor in
  exists f,
    factory m (accepting "Other") "BILLING" None = Js.Normal f
    /\ Factory.name f = "other"%string
    /\ Factory.name f <> Js.toLowerCase "BILLING".
Proof.
  intro m. eexists. split; [reflexivity|]. split; [reflexivity | discriminate].
Qed.

(** C8, as the code has it.  A handle returned by [producer] stores the
    lower-cased producer and station names of the caller, so that calls
    that differ by case only return the same handle, with the same
    destination subject: the lower-cased station name followed by
    [.final].  A handle returned by [factory] or [station] stores the
    lower-cased name found in the answer to the creation request, which is
    the lower-cased name of the caller exactly when the answer names the
    resource as the caller did, up to case.  The constructor of a consumer
    assigns the lower-cased station name, consumer name and group to the
    object it builds. *)
Theorem handles_store_lower_cased_names :
  forall (m : Memphis.obj) (http : Http.client),
    (forall stationName producerName p,
        producer m http stationName producerName = Js.Normal p ->
        Producer.producerName p = Js.toLowerCase producerName
        /\ Producer.stationName p = Js.toLowerCase stationName
        /\ Producer.final_subject p = (Js.toLowerCase stationName ++ ".final")%string
        /\ forall stationName' producerName' p',
            Js.same_modulo_case stationName stationName' = true ->
            Js.same_modulo_case producerName producerName' = true ->
            producer m http stationName' producerName' = Js.Normal p' ->
            p' = p)
    /\ (forall name description f,
           factory m http name description = Js.Normal f ->
           exists response,
             http (factory_request m name (Js.default EmptyString description))
             = Js.Normal response
             /\ Factory.name f = Js.toLowerCase (Http.name response)
             /\ (Factory.name f = Js.toLowerCase name
                 <-> Js.same_modulo_case (Http.name response) name = true))
    /\ (forall name factoryName rt rv st rp de dw s,
           station m http name factoryName rt rv st rp de dw = Js.Normal s ->
           exists response,
             http (station_request m name factoryName
                     (Js.default retentionTypes_MAX_MESSAGE_AGE_SECONDS rt)
                     (Js.default 604800 rv) (Js.default storageTypes_FILE st)
                     (Js.default 1 rp) (Js.default false de) (Js.default 0 dw))
             = Js.Normal response
             /\ Station.name s = Js.toLowerCase (Http.name response)
             /\ (Station.name s = Js.toLowerCase name
                 <-> Js.same_modulo_case (Http.name response) name = true))
    /\ (forall conn stationName consumerName consumerGroup i b t,
           let c := Consumer.fields conn stationName consumerName consumerGroup i b t in
           Consumer.stationName c = Js.toLowerCase stationName
           /\ Consumer.consumerName c = Js.toLowerCase consumerName
           /\ Consumer.consumerGroup c = Js.toLowerCase consumerGroup
           /\ Consumer.final_subject c
              = (Js.toLowerCase stationName ++ ".final")%string).
Proof.
  intros m http. split; [|split; [|split]].
  - intros stationName producerName p H.
    apply producer_handle in H. subst p. repeat split.
    intros stationName' producerName' p' Hs Hn H'.
    apply producer_handle in H'. subst p'.
    apply toLowerCase_same_modulo_case in Hs, Hn.
    unfold Producer.constructor. now rewrite Hs, Hn.
  - intros name description f H.
    destruct (factory_handle _ _ _ _ _ H) as (response & Hr & ->).
    exists response. split; [exact Hr|]. split; [reflexivity|].
    cbn. symmetry. apply toLowerCase_same_modulo_case.
  - intros name factoryName rt rv st rp de dw s H.
    destruct (station_handle _ _ _ _ _ _ _ _ _ _ _ H) as (response & Hr & ->).
    exists response. split; [exact Hr|]. split; [reflexivity|].
    cbn. symmetry. apply toLowerCase_same_modulo_case.
  - intros. repeat split.
Qed.

Lemma handles_store_lower_cased_names_witness :
  let m := Memphis.set_isConnectionActive true Memphis.constructor in
  exists p,
    producer m (accepting "P1") "Orders" "P1" = Js.Normal p
    /\ Producer.producerName p = "p1"%string
    /\ Producer.final_subject p = "orders.final"%string.
Proof.
  intro m. eexists. split; [reflexivity|].
  destruct (proj1 (handles_store_lower_cased_names m (accepting "P1"))
              "Orders"%string "P1"%string _ eq_refl) as (Hn & _ & Hs & _).
  split; [exact Hn | exact Hs].
Defined.

(** C7.  The body of the removal request sent by [Producer.destroy] reads
    [this.consumerName], a property a producer does not have: its [name]
    field is [undefined], not the producer's name; [station_name] is the
    stored station name. *)
Theorem producer_destroy_sends_no_name :
  forall (conn : object) (producerName stationName : string) (m : Memphis.obj),
    Http.bodyParams
      (Producer.destroy (Producer.constructor conn producerName stationName) m)
    = [ ("name"%string, Js.Undefined);
        ("station_name"%string, Js.Str (Js.toLowerCase stationName)) ].
Proof. reflexivity. Qed.

Example producer_destroy_p1 :
  let p := Producer.constructor MemphisInstance "p1" "orders" in
  Http.bodyParams (Producer.destroy p Memphis.constructor)
  <> [ ("name"%string, Js.Str (Producer.producerName p));
       ("station_name"%string, Js.Str (Producer.stationName p)) ].
Proof. discriminate. Qed.

(** C5.  A producer holds the [Memphis] instance, which has no [publish]
    method: [produce] throws a [TypeError] and nothing reaches the
    transport. *)
Theorem produce_throws :
  forall (producerName stationName message : string) (ackWaitSec : option Z)
         (uuid : string),
    Producer.produce
      (Producer.constructor MemphisInstance producerName stationName)
      message ackWaitSec uuid
    = Js.Throw (Js.TypeError "this.connection.publish is not a function").
Proof. reflexivity. Qed.

(** Were the call addressed to the JetStream client, the wait would be
    [ackWaitSec] times a million, a thousandth of its value in nanoseconds. *)
Example produce_ack_wait :
  forall uuid,
    Producer.produce (Producer.constructor JetStreamClient "p1" "Orders")
                     "hello" (Some 1) uuid
    = Js.Normal
        {| receiver := JetStreamClient;
           method := "publish";
           arguments :=
             {| Producer.subject := "orders.final";
                Producer.data := "hello";
                Producer.options :=
                  {| Producer.msgID := uuid; Producer.ackWait := 1000000 |} |} |}.
Proof. reflexivity. Qed.

(** The loop emits on [eventEmitter] only: a listener that is attached there
    is called once per delivery, in the order of the deliveries. *)
Lemma deliver_in_order (c : Consumer.t) (listener : nat) (ms : list nat) :
  Events.listeners "message" (Consumer.eventEmitter c) = [listener] ->
  Consumer.deliver c ms = map (fun m => (listener, Message.constructor m)) ms.
Proof.
  intros H. induction ms as [|m ms IH]; simpl; [reflexivity|].
  unfold Events.emit. rewrite H, IH. reflexivity.
Qed.

Lemma deliver_on (c : Consumer.t) (event : string) (listener : nat) (ms : list nat) :
  Consumer.deliver (Consumer.on event listener c) ms = Consumer.deliver c ms.
Proof. induction ms as [|m ms IH]; simpl; [reflexivity | now rewrite IH]. Qed.


Example two_deliveries_lost :
  let c := Consumer.on "message" 0%nat
             (Consumer.fields MemphisInstance "orders" "c1" EmptyString 1000 10 5000) in
  Consumer.deliver c [1%nat; 2%nat] = []
  /\ Consumer.deliver c [1%nat; 2%nat]
     <> [ (0%nat, Message.constructor 1); (0%nat, Message.constructor 2) ].
Proof. split; [reflexivity | discriminate]. Qed.

(** C6.  The constructor of a consumer never gets as far as a subscription
    whose failure it could report: evaluating the arguments of
    [pullSubscribe] reads the unbound identifier [nanos], and with [nanos]
    bound the callee is not a function of the [Memphis] instance.  Either
    exception leaves the constructor; no event is emitted. *)
Theorem consumer_constructor_throws :
  forall (scope : list string) (stationName consumerName consumerGroup : string)
         (i b t : Z),
    Consumer.constructor MemphisInstance stationName consumerName consumerGroup i b t
    = Js.Throw (Js.ReferenceError "nanos is not defined")
    /\ exists e,
        Consumer.constructor_in scope MemphisInstance
          stationName consumerName consumerGroup i b t = Js.Throw e.
Proof.
  intros. split; [reflexivity|].
  unfold Consumer.constructor_in, Consumer.subscribe, lookup.
  destruct (existsb _ scope); eexists; reflexivity.
Qed.

(** The exception reaches the caller of [consumer], after the creation
    request was accepted. *)
Lemma consumer_rejects (m : Memphis.obj) (http : Http.client)
      (stationName consumerName : string) (consumerGroup : option string)
      (i b t : option Z) (response : Http.response) :
  Memphis.isConnectionActive m = true ->
  http (consumer_request m stationName consumerName (Js.default EmptyString consumerGroup))
  = Js.Normal response ->
  consumer m http stationName consumerName consumerGroup i b t
  = Js.Throw (Js.ReferenceError "nanos is not defined").
Proof.
  intros Ha Hr. unfold consumer, guarded. rewrite Ha, Hr. reflexivity.
Qed.

(** Even the [catch] callback cannot report through [on]: the emitter it
    uses has no ['error'] listener, so [emit] throws the error again. *)
Lemma failed_rethrows (conn : object) (s n g : string) (i b t : Z)
      (listener : nat) (error : Js.exn) :
  Consumer.failed
    (Consumer.on "error" listener (Consumer.fields conn s n g i b t)) error
  = Js.Throw error.
Proof. reflexivity. Qed.

(* ------------------------------------------------------------------ *)
(** ** The connection manager: single calls *)

(** Settling a promise leaves the manager alone. *)
Lemma memphis_settle (p : nat) (s : Js.promise) (w : World) :
  memphis (settle p s w) = memphis w.
Proof.
  unfold settle. destruct (state_of p w); try reflexivity.
  cbn. destruct (existsb _ _); [|reflexivity].
  destruct s; reflexivity.
Qed.

(** What [connect] leaves in [host]: the normalised argument followed by
    [/tcp] when the argument is a string, the old value otherwise. *)
Lemma host_after_connect (o : Options.t) (w : World) :
  Memphis.host (memphis (fst (connect o w)))
  = match Options.host o with
    | Js.Str h => Js.Str (_normalizeHost h ++ "/tcp")
    | _ => Memphis.host (memphis w)
    end.
Proof.
  unfold connect.
  destruct (Options.host o); cbn [call_normalizeHost fst];
    try (unfold reject; rewrite memphis_settle; reflexivity).
  destruct (call_normalizeHost (Options.brokerHost o)); cbn [fst];
    [reflexivity | unfold reject; rewrite memphis_settle; reflexivity].
Qed.

(** Between two calls of [connect] the stored host stands. *)
Lemma host_stands (e : event) (w : World) :
  calls_connect e w = false ->
  Memphis.host (memphis (step e w)) = Memphis.host (memphis w).
Proof.
  destruct e as [c| | |[d|]| | |id|k nc|k ex]; cbn [step calls_connect]; intros H.
  - discriminate H.
  - unfold close; cbn. destruct (Memphis.accessTokenTimeout (memphis w)); reflexivity.
  - generalize (Net.onceConnect (Memphis.client (memphis w))). intros cbs.
    set (w0 := this _ w).
    change (Memphis.host (memphis w)) with (Memphis.host (memphis w0)).
    generalize w0. induction cbs as [|cb cbs IH]; intros w1; cbn [fold_left];
      [reflexivity | now rewrite IH].
  - generalize (Net.onData (Memphis.client (memphis w))). intros l.
    generalize w. induction l as [|q l IH]; intros w1; cbn [fold_left];
      [reflexivity | now rewrite IH].
  - reflexivity.
  - destruct (Net.onError _); reflexivity.
  - destruct (Net.onClose _); [|reflexivity].
    unfold on_close, _close; cbn. destruct (_ && _); cbn; [reflexivity|].
    destruct (Memphis.accessTokenTimeout (memphis w)); reflexivity.
  - destruct (find _ (timers w)) as [t|]; [|reflexivity].
    unfold run_timer. destruct t as [i dl [q r m| |]]; cbn [todo].
    + unfold on_timeout. destruct (_ || _); [|reflexivity].
      unfold reject. now rewrite memphis_settle.
    + discriminate H.
    + unfold on_refresh. destruct (Memphis.isConnectionActive _); reflexivity.
  - unfold settle_broker. destruct (nth_error _ _); [|reflexivity].
    unfold after_broker_connect, resolve. now rewrite memphis_settle.
  - unfold settle_broker. destruct (nth_error _ _); [|reflexivity].
    unfold after_broker_connect, reject. now rewrite memphis_settle.
Qed.

Lemma host_stands_run (es : list event) (w : World) :
  without_connect es w ->
  Memphis.host (memphis (run es w)) = Memphis.host (memphis w).
Proof.
  revert w; induction es as [|e es IH]; intros w H; cbn [run]; [reflexivity|].
  destruct H as [H1 H2]. now rewrite IH, host_stands.
Qed.

(** C10 as stated fails on a host in which the scheme occurs twice: line
    116 keeps what lies between the first two occurrences only. *)
Lemma stored_host_cut_at_second_scheme :
  let o := {| Options.host := Js.Str "http://a/http://b";
              Options.port := None;
              Options.username := Js.Str "app";
              Options.brokerHost := Js.Str "localhost";
              Options.brokerPort := None;
              Options.connectionToken := Js.Str "memphis";
              Options.reconnect := None;
              Options.maxReconnect := None;
              Options.reconnectIntervalMs := None;
              Options.timeoutMs := None |} in
  let m := memphis (fst (connect o init)) in
  Memphis.host m = Js.Str "a//tcp"
  /\ (strip_scheme "http://a/http://b" ++ "/tcp")%string = "a/http://b/tcp"%string
  /\ Memphis.host m <> Js.Str (strip_scheme "http://a/http://b" ++ "/tcp").
Proof.
  intros o m. split; [reflexivity|]. split; [reflexivity | discriminate].
Qed.

(** C10, as the code has it.  After [connect] is called with a host [h] in
    which the leading scheme, if any, does not occur a second time, the
    stored host is [h] without its leading [http://] or [https://],
    followed by [/tcp], and it stays so until [connect] is called again;
    every control-plane request built from the manager in the meantime
    puts that stored value in its URL, and the options the reconnect
    callback passes to [connect] carry it as their host. *)
Theorem stored_host_is_stripped :
  forall (o : Options.t) (h : string) (w : World) (es : list event),
    Options.host o = Js.Str h ->
    scheme_recurs h = false ->
    without_connect es (fst (connect o w)) ->
    let m := memphis (run es (fst (connect o w))) in
    let stored := (strip_scheme h ++ "/tcp")%string in
    Memphis.host (memphis (fst (connect o w))) = Js.Str stored
    /\ Memphis.host m = Js.Str stored
    /\ (forall path body,
           Http.url (post m path body)
           = ("http://" ++ stored ++ ":" ++ Js.number (Memphis.port m) ++ path)%string)
    /\ (forall name description,
           Http.url (factory_request m name description)
           = ("http://" ++ stored ++ ":" ++ Js.number (Memphis.port m)
                ++ "/api/factories/createFactory")%string)
    /\ (forall name factoryName rt rv st rp de dw,
           Http.url (station_request m name factoryName rt rv st rp de dw)
           = ("http://" ++ stored ++ ":" ++ Js.number (Memphis.port m)
                ++ "/api/stations/createStation")%string)
    /\ (forall stationName producerName,
           Http.url (producer_request m stationName producerName)
           = ("http://" ++ stored ++ ":" ++ Js.number (Memphis.port m)
                ++ "/api/producers/createProducer")%string)
    /\ (forall stationName consumerName consumerGroup,
           Http.url (consumer_request m stationName consumerName consumerGroup)
           = ("http://" ++ stored ++ ":" ++ Js.number (Memphis.port m)
                ++ "/api/consumers/createConsumer")%string)
    /\ (forall p : Producer.t,
           Producer.connection p = MemphisInstance ->
           Http.url (Producer.destroy p m)
           = ("http://" ++ stored ++ "/api/producers/destroyProducer")%string)
    /\ (forall c : Consumer.t,
           Consumer.connection c = MemphisInstance ->
           Http.url (snd (Consumer.destroy c m))
           = ("http://" ++ stored ++ "/api/consumers/destroyConsumer")%string)
    /\ (forall f : Factory.t,
           Factory.connection f = MemphisInstance ->
           Http.url (Factory.destroy f m)
           = ("http://" ++ stored ++ "/api/factories/removeFactory")%string)
    /\ (forall s : Station.t,
           Station.connection s = MemphisInstance ->
           Http.url (Station.destroy s m)
           = ("http://" ++ stored ++ "/api/stations/removeStation")%string)
    /\ Options.host (reconnect_options m) = Js.Str stored.
Proof.
  intros o h w es Ho Hh Hes m stored.
  assert (H0 : Memphis.host (memphis (fst (connect o w))) = Js.Str stored).
  { rewrite host_after_connect, Ho, (_normalizeHost_strip h Hh). reflexivity. }
  assert (Hm : Memphis.host m = Js.Str stored).
  { subst m. now rewrite host_stands_run. }
  split; [exact H0|]. split; [exact Hm|].
  repeat split.
  - intros. unfold post; cbn. now rewrite Hm.
  - intros. unfold factory_request, post; cbn. now rewrite Hm.
  - intros. unfold station_request, post; cbn. now rewrite Hm.
  - intros. unfold producer_request, post; cbn. now rewrite Hm.
  - intros. unfold consumer_request, post; cbn. now rewrite Hm.
  - intros p Hp. unfold Producer.destroy; cbn. rewrite Hp; cbn. now rewrite Hm.
  - intros c Hc. unfold Consumer.destroy; cbn. rewrite Hc; cbn. now rewrite Hm.
  - intros f Hf. unfold Factory.destroy; cbn. rewrite Hf; cbn. now rewrite Hm.
  - intros s Hs. unfold Station.destroy; cbn. rewrite Hs; cbn. now rewrite Hm.
  - exact Hm.
Qed.

(** The host of the sample configuration once the connection is up, as the
    request that creates a factory shows it. *)
Lemma stored_host_is_stripped_witness :
  let w := run [Connected; Data (Some granted); BrokerConnected 0 7]
               (fst (connect (Config.to_options local_config) init)) in
  Http.url (factory_request (memphis w) "billing" EmptyString)
  = "http://localhost/tcp:9000/api/factories/createFactory"%string.
Proof.
  intro w.
  refine (proj1 (proj2 (proj2 (proj2
            (stored_host_is_stripped
               (Config.to_options local_config) "http://localhost" init
               [Connected; Data (Some granted); BrokerConnected 0 7] _ _ _))))
            "billing"%string EmptyString).
  - reflexivity.
  - reflexivity.
  - cbn. repeat split; reflexivity.
Defined.

(** C9.  When reconnection is off or the attempts are used up, [_close]
    makes the transition [close] makes, and so does the ['close'] handler
    that calls it: the three kinds of listeners are removed, the socket is
    destroyed, the refresh timer is cleared, and the credentials, the active
    flag and the attempt counter are reset. *)
Theorem terminal_cleanup_is_close :
  forall w : World,
    Memphis.reconnect (memphis w)
    && (Memphis.reconnectAttempts (memphis w) <? Memphis.maxReconnect (memphis w))
    = false ->
    _close w = close w
    /\ on_close w = close w
    /\ let m' := memphis (close w) in
       Net.onData (Memphis.client m') = []
       /\ Net.onError (Memphis.client m') = false
       /\ Net.onClose (Memphis.client m') = false
       /\ trace (close w) = (trace w ++ [SocketDestroy])%list
       /\ timers (close w)
          = timers (clearTimeout (Memphis.accessTokenTimeout (memphis w)) w)
       /\ Memphis.accessTokenTimeout m' = None
       /\ Memphis.accessToken m' = Js.Null
       /\ Memphis.connectionId m' = Js.Null
       /\ Memphis.isConnectionActive m' = false
       /\ Memphis.reconnectAttempts m' = 0.
Proof.
  intros w H. split; [|split].
  - unfold _close. rewrite H. reflexivity.
  - unfold on_close, _close. cbn. rewrite H.
    destruct w as [m ts nt ps cs rs tr]. destruct m. cbn. 
    destruct accessTokenTimeout; reflexivity.
  - destruct w as [m ts nt ps cs rs tr]. destruct m. cbn.
    destruct accessTokenTimeout; cbn; repeat split; reflexivity.
Qed.

Lemma terminal_cleanup_is_close_witness :
  let w := run [AppConnect local_config; Closed; Closed; Closed] init in
  _close w = close w.
Proof.
  intro w. refine (proj1 (terminal_cleanup_is_close w _)).
  vm_compute. reflexivity.
Defined.

(** What the ['close'] handler does while attempts are left: the counter goes
    up by one and a timer of [reconnectIntervalMs] is armed for the
    reconnect callback. *)
Lemma close_event_schedules_reconnect (w : World) :
  Net.onClose (Memphis.client (memphis w)) = true ->
  Memphis.reconnect (memphis w)
  && (Memphis.reconnectAttempts (memphis w) <? Memphis.maxReconnect (memphis w))
  = true ->
  let w' := step Closed w in
  Memphis.reconnectAttempts (memphis w') = Memphis.reconnectAttempts (memphis w) + 1
  /\ timers w'
     = (timers w ++ [ {| timer_id := nextTimer w;
                         delay := Memphis.reconnectIntervalMs (memphis w);
                         todo := Reconnect |} ])%list.
Proof.
  intros Hc H. cbn [step]. rewrite Hc. unfold on_close, _close. cbn.
  rewrite H. cbn. split; reflexivity.
Qed.

(** C2.  The options the reconnect callback passes to [connect] are not
    those of the application's call: the host is the stored one, with its
    [/tcp] suffix, the cap has been applied to [maxReconnect], and
    [brokerHost] and [brokerPort] are absent.  With [brokerHost] absent
    [connect] throws before it reaches the socket. *)
Theorem reconnect_drops_broker_address :
  forall (c : Config.t) (w : World),
    let w1 := fst (connect (Config.to_options c) w) in
    let o := reconnect_options (memphis w1) in
    Options.host o = Js.Str (_normalizeHost (Config.host c) ++ "/tcp")
    /\ Options.brokerHost o = Js.Undefined
    /\ Options.brokerPort o = None
    /\ o <> Config.to_options c
    /\ call_normalizeHost (Options.brokerHost o)
       = Js.Throw (Js.TypeError
                     "Cannot read properties of undefined (reading 'startsWith')").
Proof.
  intros c w w1 o. subst o w1.
  split; [|split; [|split; [|split]]].
  - unfold reconnect_options; cbn [Options.host].
    rewrite host_after_connect. reflexivity.
  - reflexivity.
  - reflexivity.
  - intros H. apply (f_equal Options.brokerHost) in H. discriminate H.
  - reflexivity.
Qed.

(** A connection is established, then the socket closes and the reconnect
    timer (the third timer armed) runs: the second promise is rejected with
    the [TypeError], the socket was asked to connect once only, the counter
    stays at one and the stored host has a second suffix. *)
Example reconnect_after_close :
  let w := run [ AppConnect local_config; Connected; Data (Some granted);
                 BrokerConnected 0 7; Closed; Fired 2 ] init in
  promises w
  = [ Js.Resolved;
      Js.Rejected (Js.TypeError
                     "Cannot read properties of undefined (reading 'startsWith')") ]
  /\ filter (fun e => match e with SocketConnect _ _ => true | _ => false end)
            (trace w)
     = [ SocketConnect 9000 "localhost/tcp" ]
  /\ Memphis.reconnectAttempts (memphis w) = 1
  /\ Memphis.isConnectionActive (memphis w) = false
  /\ Memphis.host (memphis w) = Js.Str "localhost/tcp/tcp".
Proof. vm_compute. repeat split; reflexivity. Qed.
(* ------------------------------------------------------------------ *)
(** ** Frame lemmas: what each callback leaves untouched *)

Lemma cap_is_min (z : Z) : (if 9 <? z then 9 else z) = Z.min z 9.
Proof. destruct (Z.ltb_spec 9 z); lia. Qed.

Section SettleNth.
Variables (p : nat) (s : Js.promise).

Lemma settle_nth_length (l : list Js.promise) :
  List.length (settle_nth p s l) = List.length l.
Proof.
  revert p; induction l as [|x l IH]; intros [|p']; simpl; try reflexivity.
  - destruct x; reflexivity.
  - destruct x; simpl; now rewrite IH.
Qed.

Lemma settle_nth_other (q : nat) (l : list Js.promise) :
  q <> p -> nth q (settle_nth p s l) Js.Pending = nth q l Js.Pending.
Proof.
  revert p q; induction l as [|x l IH]; intros [|p'] [|q'] H; simpl;
    try reflexivity; try congruence;
    destruct x; simpl; try reflexivity; apply IH; congruence.
Qed.

Lemma settle_nth_settled (q : nat) (l : list Js.promise) :
  nth q l Js.Pending <> Js.Pending ->
  nth q (settle_nth p s l) Js.Pending = nth q l Js.Pending.
Proof.
  revert p q; induction l as [|x l IH]; intros [|p'] [|q'] H; simpl in *;
    try reflexivity; try congruence;
    destruct x; simpl; try reflexivity; try congruence; apply IH; exact H.
Qed.

Lemma settle_nth_pending (l : list Js.promise) :
  (p < List.length l)%nat -> nth p l Js.Pending = Js.Pending ->
  nth p (settle_nth p s l) Js.Pending = s.
Proof.
  revert p; induction l as [|x l IH]; intros [|p'] Hl H; simpl in *; try lia.
  - subst x. reflexivity.
  - destruct x; simpl; apply IH; try lia; exact H.
Qed.
End SettleNth.

Section Settle.
Variables (p : nat) (s : Js.promise) (w : World).

Lemma timers_settle : timers (settle p s w) = timers w.
Proof.
  unfold settle. destruct (state_of p w); try reflexivity.
  cbn. destruct (existsb _ _); [destruct s|]; reflexivity.
Qed.

Lemma nextTimer_settle : nextTimer (settle p s w) = nextTimer w.
Proof.
  unfold settle. destruct (state_of p w); try reflexivity.
  cbn. destruct (existsb _ _); [destruct s|]; reflexivity.
Qed.

Lemma connecting_settle : connecting (settle p s w) = connecting w.
Proof.
  unfold settle. destruct (state_of p w); try reflexivity.
  cbn. destruct (existsb _ _); [destruct s|]; reflexivity.
Qed.

Lemma promises_settle :
  promises (settle p s w)
  = match state_of p w with
    | Js.Pending => settle_nth p s (promises w)
    | _ => promises w
    end.
Proof.
  unfold settle. destruct (state_of p w); try reflexivity.
  cbn. destruct (existsb _ _); [destruct s|]; reflexivity.
Qed.

Lemma length_settle :
  List.length (promises (settle p s w)) = List.length (promises w).
Proof.
  rewrite promises_settle. destruct (state_of p w); try reflexivity.
  apply settle_nth_length.
Qed.

Lemma state_settle_other (q : nat) :
  q <> p -> state_of q (settle p s w) = state_of q w.
Proof.
  intros H. unfold state_of at 1. rewrite promises_settle.
  destruct (state_of p w); try reflexivity.
  now apply settle_nth_other.
Qed.

Lemma state_settle_settled (q : nat) :
  state_of q w <> Js.Pending -> state_of q (settle p s w) = state_of q w.
Proof.
  intros H. unfold state_of at 1. rewrite promises_settle.
  destruct (state_of p w); try reflexivity.
  now apply settle_nth_settled.
Qed.

Lemma state_settle_pending :
  (p < List.length (promises w))%nat -> state_of p w = Js.Pending ->
  state_of p (settle p s w) = s.
Proof.
  intros Hl H. unfold state_of at 1. rewrite promises_settle, H.
  now apply settle_nth_pending.
Qed.
End Settle.

Create Rewrite HintDb frame.
#[local] Hint Rewrite memphis_settle timers_settle nextTimer_settle
  connecting_settle length_settle : frame.

(** [connect] adds one promise and one timer, and suspends nothing. *)
Section Connect.
Variables (o : Options.t) (w : World).

(** The two places where the executor can stop early, and the place where
    it ends. *)
Ltac connect_cases :=
  unfold connect;
  destruct (call_normalizeHost (Options.host o)); cbn [fst];
  [destruct (call_normalizeHost (Options.brokerHost o)); cbn [fst]|];
  unfold reject; autorewrite with frame.

Lemma snd_connect : snd (connect o w) = List.length (promises w).
Proof.
  connect_cases; reflexivity.
Qed.

Lemma timers_connect : timers (fst (connect o w)) = (timers w ++ [timeout_timer o w])%list.
Proof.
  connect_cases; reflexivity.
Qed.

Lemma nextTimer_connect : nextTimer (fst (connect o w)) = S (nextTimer w).
Proof.
  connect_cases; reflexivity.
Qed.

Lemma connecting_connect : connecting (fst (connect o w)) = connecting w.
Proof.
  connect_cases; reflexivity.
Qed.

Lemma length_connect :
  List.length (promises (fst (connect o w))) = S (List.length (promises w)).
Proof.
  connect_cases; cbn; rewrite length_app; cbn; lia.
Qed.

(** The promises that existed keep their state. *)
Lemma state_connect (q : nat) :
  (q < List.length (promises w))%nat ->
  state_of q (fst (connect o w)) = state_of q w.
Proof.
  intros Hq.
  assert (H0 : forall w', promises w' = (promises w ++ [Js.Pending])%list ->
                          state_of q w' = state_of q w).
  { intros w' E. unfold state_of. rewrite E. now apply app_nth1. }
  assert (H1 : forall w' e, promises w' = (promises w ++ [Js.Pending])%list ->
                 state_of q (reject (List.length (promises w)) e w') = state_of q w).
  { intros w' e E. unfold reject. rewrite state_settle_other by lia. now apply H0. }
  unfold connect.
  destruct (call_normalizeHost (Options.host o)); cbn [fst];
    [|apply H1; reflexivity].
  destruct (call_normalizeHost (Options.brokerHost o)); cbn [fst];
    [apply H0 | apply H1]; reflexivity.
Qed.

(** In the manager only the configuration fields and the socket change. *)
Lemma attempts_connect :
  Memphis.reconnectAttempts (memphis (fst (connect o w)))
  = Memphis.reconnectAttempts (memphis w).
Proof.
  connect_cases; reflexivity.
Qed.

Lemma active_connect :
  Memphis.isConnectionActive (memphis (fst (connect o w)))
  = Memphis.isConnectionActive (memphis w).
Proof.
  connect_cases; reflexivity.
Qed.

Lemma refresh_handle_connect :
  Memphis.accessTokenTimeout (memphis (fst (connect o w)))
  = Memphis.accessTokenTimeout (memphis w).
Proof.
  connect_cases; reflexivity.
Qed.

Lemma maxReconnect_connect :
  Memphis.maxReconnect (memphis (fst (connect o w)))
  = match call_normalizeHost (Options.host o),
          call_normalizeHost (Options.brokerHost o) with
    | Js.Normal _, Js.Normal _ => Z.min (Js.default 3 (Options.maxReconnect o)) 9
    | _, _ => Memphis.maxReconnect (memphis w)
    end.
Proof.
  connect_cases; try reflexivity. apply cap_is_min.
Qed.
End Connect.

(** The ['data'] handler. *)
Section OnData.
Variables (d : Net.response) (p : nat) (w : World).

Lemma memphis_on_data :
  let m := memphis (on_data d p w) in
  Memphis.reconnectAttempts m = 0
  /\ Memphis.isConnectionActive m = true
  /\ Memphis.maxReconnect m = Memphis.maxReconnect (memphis w)
  /\ Memphis.accessTokenTimeout m = Some (nextTimer w).
Proof. repeat split; reflexivity. Qed.

Lemma timers_on_data :
  timers (on_data d p w)
  = (timers w ++ [ {| timer_id := nextTimer w;
                      delay := Net.access_token_exp d;
                      todo := RefreshToken |} ])%list.
Proof. reflexivity. Qed.

Lemma nextTimer_on_data : nextTimer (on_data d p w) = S (nextTimer w).
Proof. reflexivity. Qed.

Lemma promises_on_data : promises (on_data d p w) = promises w.
Proof. reflexivity. Qed.

Lemma connecting_on_data : connecting (on_data d p w) = (connecting w ++ [p])%list.
Proof. reflexivity. Qed.
End OnData.

(** A property kept by each call of a handler is kept by the whole
    dispatch. *)
Lemma fold_left_keeps {A : Type} (P : World -> Prop) (f : World -> A -> World)
      (l : list A) :
  (forall w a, P w -> P (f w a)) -> forall w, P w -> P (fold_left f l w).
Proof.
  intros Hf. induction l as [|a l IH]; intros w Hw; simpl; [exact Hw|].
  apply IH, Hf, Hw.
Qed.

(** A chunk that is parsed and has a listener leaves the manager active with
    a counter of zero. *)
Lemma data_activates (d : Net.response) (w : World) :
  Net.onData (Memphis.client (memphis w)) <> [] ->
  let w' := step (Data (Some d)) w in
  Memphis.isConnectionActive (memphis w') = true
  /\ Memphis.reconnectAttempts (memphis w') = 0.
Proof.
  intros H. cbn [step].
  destruct (Net.onData (Memphis.client (memphis w))) as [|p l]; [congruence|].
  cbn [fold_left].
  apply (fold_left_keeps
           (fun w => Memphis.isConnectionActive (memphis w) = true
                     /\ Memphis.reconnectAttempts (memphis w) = 0)).
  - intros; split; reflexivity.
  - split; reflexivity.
Qed.

Lemma data_without_listener (d : option Net.response) (w : World) :
  Net.onData (Memphis.client (memphis w)) = [] -> step (Data d) w = w.
Proof. intros H. destruct d; cbn [step]; [rewrite H|]; reflexivity. Qed.

Lemma memphis_close (w : World) :
  let m := memphis (close w) in
  Memphis.reconnectAttempts m = 0
  /\ Memphis.maxReconnect m = Memphis.maxReconnect (memphis w)
  /\ Memphis.isConnectionActive m = false
  /\ Memphis.accessTokenTimeout m = None.
Proof.
  unfold close; cbn.
  destruct (Memphis.accessTokenTimeout (memphis w)); cbn; auto.
Qed.

(** The counter and the cap across one event: either the counter stands and
    the cap is the one a call of [connect] stores, or the cap stands and the
    counter is reset or goes up by one from below the cap. *)
Lemma step_counter (e : event) (w : World) :
  let w' := step e w in
  (counter w' = counter w
   /\ (limit w' = limit w
       \/ (exists c, e = AppConnect c
                     /\ limit w' = Z.min (Js.default 3 (Config.maxReconnect c)) 9)
       \/ limit w' = Z.min (limit w) 9))
  \/ (limit w' = limit w
      /\ (counter w' = 0 \/ (counter w' = counter w + 1 /\ counter w < limit w))).
Proof.
  unfold counter, limit. destruct e as [c| | |[d|]| | |id|k nc|k ex]; cbn [step].
  - left. rewrite attempts_connect, maxReconnect_connect. split; [reflexivity|].
    right; left. exists c. split; reflexivity.
  - right. destruct (memphis_close w) as (Ha & Hm & _). auto.
  - left.
    apply (fold_left_keeps
             (fun w' => Memphis.reconnectAttempts (memphis w')
                        = Memphis.reconnectAttempts (memphis w)
                        /\ (Memphis.maxReconnect (memphis w')
                            = Memphis.maxReconnect (memphis w) \/ _))).
    + intros w0 cb [H1 [H2|H2]]; cbn; split; auto.
    + cbn. split; [reflexivity | left; reflexivity].
  - destruct (Net.onData (Memphis.client (memphis w))) as [|p l] eqn:E.
    + left. cbn. split; [reflexivity | left; reflexivity].
    + right. cbn [fold_left].
      apply (fold_left_keeps
               (fun w' => Memphis.maxReconnect (memphis w')
                          = Memphis.maxReconnect (memphis w)
                          /\ (Memphis.reconnectAttempts (memphis w') = 0 \/ _))).
      * intros w0 q [H1 _]. split; [exact H1 | left; reflexivity].
      * split; [reflexivity | left; reflexivity].
  - left. split; [reflexivity | left; reflexivity].
  - left. destruct (Net.onError _); split; auto.
  - destruct (Net.onClose _); [|left; split; auto].
    right. unfold on_close, _close. cbn.
    destruct (Memphis.reconnect (memphis w)); cbn.
    + destruct (Z.ltb_spec (Memphis.reconnectAttempts (memphis w))
                           (Memphis.maxReconnect (memphis w))); cbn.
      * split; [reflexivity | right; split; [reflexivity | assumption]].
      * destruct (Memphis.accessTokenTimeout (memphis w)); cbn; auto.
    + destruct (Memphis.accessTokenTimeout (memphis w)); cbn; auto.
  - destruct (find _ (timers w)) as [t|]; [|left; split; auto].
    left. unfold run_timer. destruct (todo t) as [p r m| |].
    + unfold on_timeout. destruct (_ || _); [unfold reject; rewrite memphis_settle|];
        cbn; auto.
    + unfold on_reconnect.
      destruct (connect _ _) as [w1 p] eqn:E.
      assert (E1 : w1 = fst (connect (reconnect_options
                     (memphis (set_timers
                        (filter (fun t0 => negb (Nat.eqb (timer_id t0) id)) (timers w)) w)))
                     (set_timers
                        (filter (fun t0 => negb (Nat.eqb (timer_id t0) id)) (timers w)) w)))
        by now rewrite E.
      assert (H : Memphis.reconnectAttempts (memphis w1)
                  = Memphis.reconnectAttempts (memphis w)
                  /\ (Memphis.maxReconnect (memphis w1) = Memphis.maxReconnect (memphis w)
                      \/ Memphis.maxReconnect (memphis w1)
                         = Z.min (Memphis.maxReconnect (memphis w)) 9)).
      { rewrite E1, attempts_connect, maxReconnect_connect. cbn.
        split; [reflexivity|]. destruct (Memphis.host (memphis w)); auto. }
      destruct H as [Ha Hm].
      assert (forall s, memphis (after_reconnect s w1) = memphis w1)
        by (intros []; reflexivity).
      destruct (state_of p w1); try rewrite H; cbn; split; auto; tauto.
    + unfold on_refresh. destruct (Memphis.isConnectionActive _); cbn; auto.
  - left. unfold settle_broker. destruct (nth_error _ _); [|split; auto].
    unfold after_broker_connect, resolve. rewrite memphis_settle. cbn. auto.
  - left. unfold settle_broker. destruct (nth_error _ _); [|split; auto].
    unfold after_broker_connect, reject. rewrite memphis_settle. cbn. auto.
Qed.

(* ------------------------------------------------------------------ *)
(** ** The reconnect counter *)

Lemma run_app (es es' : list event) (w : World) :
  run (es ++ es') w = run es' (run es w).
Proof. revert w; induction es as [|e es IH]; intros w; simpl; auto. Qed.

Lemma counter_at_most_nine (w : World) :
  reachable w -> 0 <= counter w <= 9 /\ limit w <= 9.
Proof.
  intros [es ->].
  assert (H : 0 <= counter init <= 9 /\ limit init <= 9) by (cbn; lia).
  revert H. generalize init. induction es as [|e es IH]; intros w H; [exact H|].
  apply IH. pose proof (step_counter e w) as S. cbv zeta in S.
  destruct S as [[Hc Hl]|[Hl Hc]]; [destruct Hl as [Hl|[(c & _ & Hl)|Hl]]|]; lia.
Qed.





(* ------------------------------------------------------------------ *)
(** ** Identifiers in a reachable world *)

Lemma timer_ok_mono (nt np nt' np' : nat) (t : timer) :
  (nt <= nt')%nat -> (np <= np')%nat -> timer_ok nt np t -> timer_ok nt' np' t.
Proof.
  unfold timer_ok. intros ? ? [? ?]. split; [lia|].
  destruct (todo t); auto; lia.
Qed.

Lemma Forall_timer_ok_mono (nt np nt' np' : nat) (ts : list timer) :
  (nt <= nt')%nat -> (np <= np')%nat ->
  Forall (timer_ok nt np) ts -> Forall (timer_ok nt' np') ts.
Proof.
  intros ? ? H. eapply Forall_impl; [|exact H].
  intros t. now apply timer_ok_mono.
Qed.

Lemma Forall_lt_mono (n n' : nat) (l : list nat) :
  (n <= n')%nat -> Forall (fun q => (q < n)%nat) l -> Forall (fun q => (q < n')%nat) l.
Proof. intros ? H. eapply Forall_impl; [|exact H]. cbn; intros; lia. Qed.

Lemma Forall_cb_mono (n n' : nat) (l : list Net.connectCallback) :
  (n <= n')%nat ->
  Forall (fun cb => (Net.cb_promise cb < n)%nat) l ->
  Forall (fun cb => (Net.cb_promise cb < n')%nat) l.
Proof. intros ? H. eapply Forall_impl; [|exact H]. cbn; intros; lia. Qed.

Lemma Forall_filter {A : Type} (P : A -> Prop) (f : A -> bool) (l : list A) :
  Forall P l -> Forall P (filter f l).
Proof.
  intros H. apply Forall_forall. intros x Hx. apply filter_In in Hx as [Hx _].
  revert x Hx. now apply Forall_forall.
Qed.

Lemma Forall_remove_nth {A : Type} (P : A -> Prop) (k : nat) (l : list A) :
  Forall P l -> Forall P (remove_nth k l).
Proof.
  revert k; induction l as [|x l IH]; intros [|k] H; simpl; auto;
    inversion H; subst; auto.
Qed.

(** The socket after [connect]: the ['data'] listeners stand, and the
    callback of this call, if [connect] got that far, joins the ['connect']
    ones. *)
Lemma client_connect (o : Options.t) (w : World) :
  let s := Memphis.client (memphis w) in
  let s' := Memphis.client (memphis (fst (connect o w))) in
  Net.onData s' = Net.onData s
  /\ Net.onClose s' = Net.onClose s
  /\ (Net.onceConnect s' = Net.onceConnect s
      \/ exists cb, Net.cb_promise cb = List.length (promises w)
                    /\ Net.onceConnect s' = (Net.onceConnect s ++ [cb])%list).
Proof.
  unfold connect.
  destruct (call_normalizeHost (Options.host o)); cbn [fst];
    [|unfold reject; rewrite memphis_settle; cbn; auto].
  destruct (call_normalizeHost (Options.brokerHost o)); cbn [fst];
    [|unfold reject; rewrite memphis_settle; cbn; auto].
  cbn. repeat split; auto. right. eexists. split; [|reflexivity]. reflexivity.
Qed.

Lemma well_formed_connect (o : Options.t) (w : World) :
  well_formed w -> well_formed (fst (connect o w)).
Proof.
  intros (Ht & Hh & Hc & Hd & Ho). unfold well_formed.
  rewrite timers_connect, nextTimer_connect, length_connect, connecting_connect,
    refresh_handle_connect.
  destruct (client_connect o w) as (Ed & _ & Eo). cbv zeta in Ed, Eo.
  rewrite Ed. repeat split.
  - apply Forall_app. split.
    + eapply Forall_timer_ok_mono; [| |exact Ht]; lia.
    + constructor; [|constructor]. split; cbn; lia.
  - intros id H. specialize (Hh id H). lia.
  - eapply Forall_lt_mono; [|exact Hc]; lia.
  - eapply Forall_lt_mono; [|exact Hd]; lia.
  - destruct Eo as [->|(cb & Hcb & ->)].
    + eapply Forall_cb_mono; [|exact Ho]; lia.
    + apply Forall_app. split.
      * eapply Forall_cb_mono; [|exact Ho]; lia.
      * constructor; [lia | constructor].
Qed.

Lemma well_formed_settle (p : nat) (s : Js.promise) (w : World) :
  well_formed w -> well_formed (settle p s w).
Proof.
  unfold well_formed.
  rewrite timers_settle, nextTimer_settle, length_settle, connecting_settle,
    memphis_settle. auto.
Qed.

Lemma well_formed_close (w : World) : well_formed w -> well_formed (close w).
Proof.
  intros (Ht & Hh & Hc & Hd & Ho). unfold well_formed, close. cbn.
  destruct (Memphis.accessTokenTimeout (memphis w)); cbn;
    repeat split; auto; try discriminate; try constructor.
  now apply Forall_filter.
Qed.

Lemma well_formed_on_data (d : Net.response) (p : nat) (w : World) :
  (p < List.length (promises w))%nat -> well_formed w -> well_formed (on_data d p w).
Proof.
  intros Hp (Ht & Hh & Hc & Hd & Ho). unfold well_formed. cbn. repeat split; auto.
  - apply Forall_app. split.
    + eapply Forall_timer_ok_mono; [| |exact Ht]; lia.
    + constructor; [|constructor]. split; cbn; auto.
  - intros id H. injection H as <-. lia.
  - apply Forall_app. split; [exact Hc|]. constructor; [exact Hp | constructor].
Qed.

Lemma well_formed_on_connect (cb : Net.connectCallback) (w : World) :
  (Net.cb_promise cb < List.length (promises w))%nat ->
  well_formed w -> well_formed (on_connect cb w).
Proof.
  intros Hp (Ht & Hh & Hc & Hd & Ho). unfold well_formed. cbn. repeat split; auto.
  apply Forall_app. split; [exact Hd|]. constructor; [exact Hp | constructor].
Qed.

Lemma fold_left_keeps_in {A : Type} (P : World -> Prop) (f : World -> A -> World)
      (l : list A) :
  (forall w a, In a l -> P w -> P (f w a)) -> forall w, P w -> P (fold_left f l w).
Proof.
  induction l as [|a l IH]; intros Hf w Hw; simpl; [exact Hw|].
  apply IH; [intros; apply Hf; [now right | assumption]|].
  apply Hf; [now left | exact Hw].
Qed.

Lemma well_formed_step (e : event) (w : World) :
  well_formed w -> well_formed (step e w).
Proof.
  intros H. destruct e as [c| | |[d|]| | |id|k nc|k ex]; cbn [step].
  - now apply well_formed_connect.
  - now apply well_formed_close.
  - destruct H as (Ht & Hh & Hc & Hd & Ho).
    refine (proj1 (fold_left_keeps_in
              (fun w' => well_formed w' /\ promises w' = promises w) _ _ _ _ _)).
    + intros w0 cb Hin [Hw E]. split; [|cbn; exact E].
      apply well_formed_on_connect; [|exact Hw]. rewrite E.
      revert cb Hin. now apply Forall_forall.
    + split; [|reflexivity]. unfold well_formed; cbn. repeat split; auto.
  - destruct H as (Ht & Hh & Hc & Hd & Ho).
    refine (proj1 (fold_left_keeps_in
              (fun w' => well_formed w' /\ promises w' = promises w) _ _ _ _ _)).
    + intros w0 q Hin [Hw E]. split; [|cbn; exact E].
      apply well_formed_on_data; [|exact Hw]. rewrite E.
      revert q Hin. now apply Forall_forall.
    + split; [|reflexivity]. unfold well_formed; repeat split; auto.
  - exact H.
  - destruct (Net.onError _); exact H.
  - destruct (Net.onClose _); [|exact H].
    destruct H as (Ht & Hh & Hc & Hd & Ho).
    unfold on_close, _close. cbn.
    destruct (Memphis.reconnect (memphis w)
              && (Memphis.reconnectAttempts (memphis w) <? Memphis.maxReconnect (memphis w))).
    + unfold well_formed. cbn. repeat split; auto.
      * apply Forall_app. split.
        -- eapply Forall_timer_ok_mono; [| |exact Ht]; lia.
        -- constructor; [|constructor]. split; cbn; auto.
      * intros i Hi. specialize (Hh i Hi). lia.
    + unfold well_formed. cbn.
      destruct (Memphis.accessTokenTimeout (memphis w)); cbn;
        repeat split; auto; try discriminate; try constructor.
      now apply Forall_filter.
  - destruct (find _ (timers w)) as [t|]; [|exact H].
    assert (H' : well_formed
                   (set_timers
                      (filter (fun t0 => negb (Nat.eqb (timer_id t0) id)) (timers w)) w)).
    { destruct H as (Ht & Hh & Hc & Hd & Ho). unfold well_formed; cbn.
      repeat split; auto. now apply Forall_filter. }
    revert H'. generalize (set_timers
                 (filter (fun t0 => negb (Nat.eqb (timer_id t0) id)) (timers w)) w).
    intros w0 H0. unfold run_timer. destruct (todo t) as [p r m| |].
    + unfold on_timeout. destruct (_ || _); [|exact H0].
      now apply well_formed_settle.
    + unfold on_reconnect.
      pose proof (well_formed_connect (reconnect_options (memphis w0)) w0 H0) as H1.
      destruct (connect _ _) as [w1 p]. cbn [fst] in H1.
      assert (forall s, well_formed (after_reconnect s w1))
        by (intros []; exact H1).
      destruct (state_of p w1); auto.
    + unfold on_refresh. destruct (Memphis.isConnectionActive _); exact H0.
  - unfold settle_broker. destruct (nth_error _ _); [|exact H].
    unfold after_broker_connect, resolve. apply well_formed_settle.
    destruct H as (Ht & Hh & Hc & Hd & Ho). unfold well_formed; cbn.
    repeat split; auto. now apply Forall_remove_nth.
  - unfold settle_broker. destruct (nth_error _ _); [|exact H].
    unfold after_broker_connect, reject. apply well_formed_settle.
    destruct H as (Ht & Hh & Hc & Hd & Ho). unfold well_formed; cbn.
    repeat split; auto. now apply Forall_remove_nth.
Qed.

Lemma reachable_well_formed (w : World) : reachable w -> well_formed w.
Proof.
  intros [es ->].
  assert (H : well_formed init).
  { unfold well_formed; cbn. repeat split; try constructor; discriminate. }
  revert H. generalize init. induction es as [|e es IH]; intros w H; [exact H|].
  apply IH. now apply well_formed_step.
Qed.

(* ------------------------------------------------------------------ *)
(** ** The timeout of [connect] *)

Lemma settled_is_allocated (p : nat) (w : World) :
  state_of p w <> Js.Pending -> (p < List.length (promises w))%nat.
Proof.
  intros H. destruct (Nat.lt_ge_cases p (List.length (promises w))) as [|Hge]; [assumption|].
  exfalso. apply H. unfold state_of. now apply nth_overflow.
Qed.

Lemma promises_close (w : World) : promises (close w) = promises w.
Proof.
  unfold close; cbn. destruct (Memphis.accessTokenTimeout (memphis w)); reflexivity.
Qed.

Lemma promises_on_close (w : World) : promises (on_close w) = promises w.
Proof.
  unfold on_close, _close; cbn.
  destruct (_ && _); [reflexivity|].
  destruct (Memphis.accessTokenTimeout (memphis w)); reflexivity.
Qed.

Lemma promises_dispatch_connect (w : World) : promises (step Connected w) = promises w.
Proof.
  cbn [step]. apply (fold_left_keeps (fun w' => promises w' = promises w)).
  - intros w0 cb H. exact H.
  - reflexivity.
Qed.

Lemma promises_dispatch_data (d : option Net.response) (w : World) :
  promises (step (Data d) w) = promises w.
Proof.
  destruct d as [d|]; cbn [step]; [|reflexivity].
  apply (fold_left_keeps (fun w' => promises w' = promises w)).
  - intros w0 q H. exact H.
  - reflexivity.
Qed.

(** Once settled, a promise keeps its state whatever happens. *)
Lemma settled_step (p : nat) (e : event) (w : World) :
  state_of p w <> Js.Pending -> state_of p (step e w) = state_of p w.
Proof.
  intros H. pose proof (settled_is_allocated p w H) as Hp.
  destruct e as [c| | |d| | |id|k nc|k ex].
  - cbn [step]. now apply state_connect.
  - unfold state_of. cbn [step]. now rewrite promises_close.
  - unfold state_of. now rewrite promises_dispatch_connect.
  - unfold state_of. now rewrite promises_dispatch_data.
  - cbn [step]. destruct (Net.onError _); reflexivity.
  - cbn [step]. destruct (Net.onClose _); [|reflexivity].
    unfold state_of. now rewrite promises_on_close.
  - cbn [step]. destruct (find _ (timers w)) as [t|]; [|reflexivity].
    set (w0 := set_timers _ w).
    assert (H0 : state_of p w0 = state_of p w) by reflexivity.
    assert (Hp0 : (p < List.length (promises w0))%nat) by exact Hp.
    rewrite <- H0 in H |- *. clearbody w0.
    unfold run_timer. destruct (todo t) as [q r m| |].
    + unfold on_timeout. destruct (_ || _); [|reflexivity].
      unfold reject. now apply state_settle_settled.
    + unfold on_reconnect.
      pose proof (state_connect (reconnect_options (memphis w0)) w0 p Hp0) as E.
      destruct (connect _ _) as [w1 q]. cbn [fst] in E.
      assert (forall s, state_of p (after_reconnect s w1) = state_of p w1)
        by (intros []; reflexivity).
      destruct (state_of q w1); rewrite <- E; auto.
    + unfold on_refresh. destruct (Memphis.isConnectionActive _); reflexivity.
  - cbn [step]. unfold settle_broker. destruct (nth_error _ _); [|reflexivity].
    unfold after_broker_connect, resolve. now rewrite state_settle_settled.
  - cbn [step]. unfold settle_broker. destruct (nth_error _ _); [|reflexivity].
    unfold after_broker_connect, reject. now rewrite state_settle_settled.
Qed.

Lemma settled_run (p : nat) (es : list event) (w : World) :
  state_of p w <> Js.Pending -> state_of p (run es w) = state_of p w.
Proof.
  revert w; induction es as [|e es IH]; intros w H; simpl; [reflexivity|].
  rewrite IH; rewrite settled_step; auto.
Qed.

Section Waiting.
Variables (p t : nat) (T : timer).
Hypothesis T_id : timer_id T = t.

Local Abbreviation waiting := (waiting p t T).

Lemma In_remove_nth {A : Type} (a : A) (k : nat) (l : list A) :
  In a (remove_nth k l) -> In a l.
Proof.
  revert k; induction l as [|x l IH]; intros [|k] H; simpl in *; auto.
  destruct H; auto. right. eapply IH; eauto.
Qed.

Lemma waiting_clear (h : option nat) (w : World) :
  h <> Some t ->
  In T (timers w) -> In T (timers (clearTimeout h w)).
Proof.
  intros Hh Hin. destruct h as [id|]; [|exact Hin]. cbn.
  apply filter_In. split; [exact Hin|].
  rewrite T_id. apply negb_true_iff, Nat.eqb_neq. congruence.
Qed.

Lemma waiting_connect (o : Options.t) (w : World) :
  waiting w -> waiting (fst (connect o w)).
Proof.
  intros (Hp & Hs & Hc & Ht & Hin & Hu & Hh). unfold waiting.
  rewrite length_connect, state_connect, connecting_connect, nextTimer_connect,
    timers_connect, refresh_handle_connect by exact Hp.
  repeat split; auto.
  - apply in_or_app. now left.
  - intros x Hx Hor. apply in_app_or in Hx as [Hx|[<-|[]]]; [now apply Hu|].
    exfalso. cbn in Hor. destruct Hor as [E|(r & m & E)]; [lia|].
    injection E as E _ _. lia.
Qed.

Lemma waiting_settle (q : nat) (s : Js.promise) (w : World) :
  q <> p -> waiting w -> waiting (settle q s w).
Proof.
  intros Hq (Hp & Hs & Hc & Ht & Hin & Hu & Hh). unfold waiting.
  rewrite length_settle, state_settle_other, connecting_settle, nextTimer_settle,
    timers_settle, memphis_settle by congruence.
  repeat split; auto.
Qed.

Lemma waiting_cleanup (w : World) : waiting w -> waiting (close w).
Proof.
  intros (Hp & Hs & Hc & Ht & Hin & Hu & Hh).
  pose proof (waiting_clear _ w Hh Hin) as Hin'.
  unfold waiting, close, state_of in *. cbn.
  destruct (Memphis.accessTokenTimeout (memphis w)); cbn in *;
    repeat split; auto; try discriminate.
  intros x Hx. apply filter_In in Hx as [Hx _]. now apply Hu.
Qed.

Lemma waiting_step (e : event) (w : World) :
  e <> Fired t -> waiting w -> inactive (step e w) -> waiting (step e w).
Proof.
  intros He H Hi. destruct e as [c| | |[d|]| | |id|k nc|k ex].
  - now apply waiting_connect.
  - now apply waiting_cleanup.
  - cbn [step]. apply fold_left_keeps.
    + intros w0 cb H0. exact H0.
    + exact H.
  - destruct (Net.onData (Memphis.client (memphis w))) as [|q l] eqn:E.
    + now rewrite data_without_listener.
    + exfalso. unfold inactive in Hi.
      destruct (data_activates d w) as [Ha _]; [rewrite E; discriminate|].
      cbv zeta in Ha. congruence.
  - exact H.
  - cbn [step]. destruct (Net.onError _); exact H.
  - cbn [step]. destruct (Net.onClose _); [|exact H].
    destruct H as (Hp & Hs & Hc & Ht & Hin & Hu & Hh).
    pose proof (waiting_clear _ w Hh Hin) as Hin'.
    unfold on_close, _close, waiting, state_of in *. cbn.
    destruct (_ && _); cbn.
    * repeat split; auto.
      -- apply in_or_app. now left.
      -- intros x Hx Hor. apply in_app_or in Hx as [Hx|[<-|[]]]; [now apply Hu|].
         exfalso. cbn in Hor. destruct Hor as [E|(r & m & E)]; [lia | discriminate].
    * destruct (Memphis.accessTokenTimeout (memphis w)); cbn in *;
        repeat split; auto; try discriminate.
      intros x Hx. apply filter_In in Hx as [Hx _]. now apply Hu.
  - cbn [step]. destruct (find _ (timers w)) as [t0|] eqn:F; [|exact H].
    apply find_some in F as [F1 F2]. apply Nat.eqb_eq in F2.
    assert (Hid : id <> t) by congruence.
    assert (H0 : waiting (set_timers
                   (filter (fun x => negb (Nat.eqb (timer_id x) id)) (timers w)) w)).
    { destruct H as (Hp & Hs & Hc & Ht & Hin & Hu & Hh). unfold waiting; cbn.
      repeat split; auto.
      - apply filter_In. split; [exact Hin|].
        rewrite T_id. apply negb_true_iff, Nat.eqb_neq. congruence.
      - intros x Hx. apply filter_In in Hx as [Hx _]. now apply Hu. }
    assert (Hq : forall q r m, todo t0 = ConnectTimeout q r m -> q <> p).
    { intros q r m E ->. destruct H as (_ & _ & _ & _ & _ & Hu & _).
      assert (t0 = T) by (apply Hu; [exact F1 | right; eauto]).
      subst t0. congruence. }
    revert H0. generalize (set_timers
                 (filter (fun x => negb (Nat.eqb (timer_id x) id)) (timers w)) w).
    intros w0 H0. unfold run_timer. destruct (todo t0) as [q r m| |] eqn:E.
    * unfold on_timeout. destruct (_ || _); [|exact H0].
      apply waiting_settle; [eapply Hq; eauto | exact H0].
    * unfold on_reconnect.
      pose proof (waiting_connect (reconnect_options (memphis w0)) w0 H0) as H1.
      destruct (connect _ _) as [w1 q]. cbn [fst] in H1.
      assert (forall s, waiting (after_reconnect s w1)) by (intros []; exact H1).
      destruct (state_of q w1); auto.
    * unfold on_refresh. destruct (Memphis.isConnectionActive _); exact H0.
  - cbn [step]. unfold settle_broker.
    destruct (nth_error _ _) as [q|] eqn:E; [|exact H].
    assert (Hq : q <> p).
    { intros ->. apply nth_error_In in E. now destruct H as (_ & _ & Hc & _). }
    unfold after_broker_connect, resolve. apply waiting_settle; [exact Hq|].
    destruct H as (Hp & Hs & Hc & Ht & Hin & Hu & Hh). unfold waiting; cbn.
    repeat split; auto. intros Hin'. apply Hc. eapply In_remove_nth; eauto.
  - cbn [step]. unfold settle_broker.
    destruct (nth_error _ _) as [q|] eqn:E; [|exact H].
    assert (Hq : q <> p).
    { intros ->. apply nth_error_In in E. now destruct H as (_ & _ & Hc & _). }
    unfold after_broker_connect, reject. apply waiting_settle; [exact Hq|].
    destruct H as (Hp & Hs & Hc & Ht & Hin & Hu & Hh). unfold waiting; cbn.
    repeat split; auto. intros Hin'. apply Hc. eapply In_remove_nth; eauto.
Qed.

Lemma waiting_run (es : list event) (w : World) :
  ~ In (Fired t) es -> waiting w -> Forall inactive (states es w) ->
  waiting (run es w).
Proof.
  revert w; induction es as [|e es IH]; intros w Hn H Hi; simpl; [exact H|].
  cbn [states] in Hi. apply Forall_cons_iff in Hi as [Hi1 Hi2].
  apply IH; auto.
  - intros Hin. apply Hn. now right.
  - apply waiting_step; auto. intros ->. apply Hn. now left.
Qed.

(** When the timer runs in an inactive manager, the promise is rejected
    with the timeout error. *)
Lemma waiting_fire (w : World) :
  (exists r m, todo T = ConnectTimeout p r m) ->
  waiting w -> inactive w ->
  state_of p (step (Fired t) w) = Js.Rejected ConnectionTimeout.
Proof.
  intros (r & m & ET) (Hp & Hs & Hc & Ht & Hin & Hu & Hh) Hi. cbn [step].
  destruct (find _ (timers w)) as [t0|] eqn:F.
  - pose proof (find_some _ _ F) as [F1 F2]. apply Nat.eqb_eq in F2.
    assert (t0 = T) by (apply Hu; auto). subst t0.
    unfold run_timer. rewrite ET. unfold on_timeout. cbn [memphis set_timers].
    unfold inactive in Hi. rewrite Hi. rewrite orb_true_r.
    unfold reject. apply state_settle_pending; assumption.
  - exfalso. apply (find_none _ _ F) in Hin. rewrite T_id, Nat.eqb_refl in Hin.
    discriminate.
Qed.
End Waiting.

(** C1.  [connect] is called in a reachable world with a typed
    configuration; from the call on, up to and including the moment its
    timeout fires, the manager is never active.  Then the timer of
    [timeoutMs] armed by the call is still pending, the promise is still
    pending when the timer runs, it is then rejected with the timeout error,
    and no later event resolves it or changes the rejection. *)
Theorem connect_times_out :
  forall (c : Config.t) (w : World) (es later : list event),
    reachable w ->
    let t := nextTimer w in
    let w1 := fst (connect (Config.to_options c) w) in
    let p := snd (connect (Config.to_options c) w) in
    ~ In (Fired t) es ->
    Forall inactive (w1 :: states es w1) ->
    let w2 := run es w1 in
    let w3 := step (Fired t) w2 in
    In (timeout_timer (Config.to_options c) w) (timers w2)
    /\ state_of p w2 = Js.Pending
    /\ state_of p w3 = Js.Rejected ConnectionTimeout
    /\ state_of p (run later w3) = Js.Rejected ConnectionTimeout
    /\ state_of p (run later w3) <> Js.Resolved.
Proof.
  intros c w es later Hr t w1 p Hn Hi w2 w3.
  pose proof (reachable_well_formed w Hr) as (Wt & Wh & Wc & _ & _).
  set (T := timeout_timer (Config.to_options c) w).
  assert (Ep : p = List.length (promises w)) by apply snd_connect.
  assert (H1 : waiting p t T w1).
  { unfold waiting. subst w1.
    rewrite length_connect, connecting_connect, nextTimer_connect, timers_connect,
      refresh_handle_connect.
    repeat split.
    - lia.
    - unfold state_of. rewrite Ep.
      unfold connect. cbn [Config.to_options Options.host Options.brokerHost
                           call_normalizeHost fst].
      cbn. rewrite app_nth2, Nat.sub_diag by lia. reflexivity.
    - intros Hin. rewrite Forall_forall in Wc. specialize (Wc _ Hin). lia.
    - subst t; lia.
    - apply in_or_app. right. now left.
    - intros x Hx Hor. apply in_app_or in Hx as [Hx|[<-|[]]]; [|reflexivity].
      exfalso. rewrite Forall_forall in Wt. destruct (Wt _ Hx) as [Wi Wq].
      destruct Hor as [E|(r & m & E)]; [subst t; lia|].
      rewrite E in Wq. lia.
    - intros E. specialize (Wh _ E). subst t; lia. }
  apply Forall_cons_iff in Hi as [Hi1 Hi2].
  assert (H2 : waiting p t T w2).
  { apply waiting_run; auto. }
  assert (I2 : inactive w2).
  { subst w2. clear - Hi1 Hi2. revert Hi1 Hi2. generalize w1.
    induction es as [|e es IH]; intros w0 Hi1 Hi2; simpl; [exact Hi1|].
    cbn [states] in Hi2. apply Forall_cons_iff in Hi2 as [Hi2 Hi3]. now apply IH. }
  assert (H3 : state_of p w3 = Js.Rejected ConnectionTimeout).
  { apply (waiting_fire p t T); auto. rewrite Ep. cbn. eauto. }
  assert (H4 : state_of p (run later w3) = Js.Rejected ConnectionTimeout).
  { rewrite settled_run; [exact H3|]. rewrite H3. discriminate. }
  repeat split; auto.
  - now destruct H2 as (_ & _ & _ & _ & Hin & _).
  - now destruct H2 as (_ & Hs & _).
  - rewrite H4. discriminate.
Qed.

(** The control plane is unreachable: the socket reports an error and
    closes, a reconnect is scheduled and fails, and then the timeout of the
    first call fires. *)
Lemma connect_times_out_witness :
  let w := fst (connect (Config.to_options local_config) init) in
  let w3 := step (Fired 0) (run [SocketError; Closed; Fired 1] w) in
  state_of 0 w3 = Js.Rejected ConnectionTimeout
  /\ state_of 0 (run [Connected; Data (Some granted); BrokerConnected 0 7] w3)
     <> Js.Resolved.
Proof.
  intros w w3.
  destruct (connect_times_out local_config init [SocketError; Closed; Fired 1]
              [Connected; Data (Some granted); BrokerConnected 0 7])
    as (_ & _ & H3 & _ & H5).
  - exists []. reflexivity.
  - cbn. intros [H|[H|[H|[]]]]; discriminate H.
  - repeat constructor.
  - split; [exact H3 | exact H5].
Defined.

(* ------------------------------------------------------------------ *)
(** ** Host normalisation, further *)



(** X1.  On a host whose leading scheme does not occur a second time,
    [_normalizeHost] drops the leading [http://] or [https://] and keeps the
    rest whole; a host without scheme is returned as it is. *)
Theorem normalizeHost_strips_scheme :
  forall host : string,
    scheme_recurs host = false -> _normalizeHost host = strip_scheme host.
Proof.
  intros host H. unfold scheme_recurs, strip_scheme in *.
  destruct (prefix "http://" host) eqn:E1.
  - rewrite (prefix_drop _ _ E1) at 1. now apply _normalizeHost_http.
  - destruct (prefix "https://" host) eqn:E2.
    + rewrite (prefix_drop _ _ E2) at 1. now apply _normalizeHost_https.
    + now apply _normalizeHost_plain.
Qed.

Lemma normalizeHost_strips_scheme_witness :
  _normalizeHost "https://broker.example.com:9000" = "broker.example.com:9000"%string.
Proof.
  apply (normalizeHost_strips_scheme "https://broker.example.com:9000").
  reflexivity.
Defined.


(* ------------------------------------------------------------------ *)
(** ** The resource methods *)

(** X3.  On a manager whose connection is not active, [factory], [station],
    [producer] and [consumer] fail with [Error("Connection is dead")]
    whatever the HTTP client would answer: the check comes before the
    request. *)
Theorem dead_connection_is_refused :
  forall (m : Memphis.obj) (http : Http.client),
    Memphis.isConnectionActive m = false ->
    (forall name description,
        factory m http name description = Js.Throw (Js.Error "Connection is dead"))
    /\ (forall name factoryName rt rv st rp de dw,
           station m http name factoryName rt rv st rp de dw
           = Js.Throw (Js.Error "Connection is dead"))
    /\ (forall stationName producerName,
           producer m http stationName producerName
           = Js.Throw (Js.Error "Connection is dead"))
    /\ (forall stationName consumerName consumerGroup i b t,
           consumer m http stationName consumerName consumerGroup i b t
           = Js.Throw (Js.Error "Connection is dead")).
Proof.
  intros m http H. unfold factory, station, producer, consumer, guarded.
  rewrite H. repeat split.
Qed.

Lemma dead_connection_is_refused_witness :
  producer Memphis.constructor (accepting "p1") "orders" "p1"
  = Js.Throw (Js.Error "Connection is dead").
Proof.
  apply (dead_connection_is_refused Memphis.constructor (accepting "p1")).
  reflexivity.
Defined.

(** X4.  On an active connection, an error of the creation request is
    rethrown as it is by [factory], [station], [producer] and [consumer]:
    no handle is built. *)
Theorem failed_request_is_rethrown :
  forall (m : Memphis.obj) (http : Http.client) (ex : Js.exn),
    Memphis.isConnectionActive m = true ->
    (forall req, http req = Js.Throw ex) ->
    (forall name description, factory m http name description = Js.Throw ex)
    /\ (forall name factoryName rt rv st rp de dw,
           station m http name factoryName rt rv st rp de dw = Js.Throw ex)
    /\ (forall stationName producerName,
           producer m http stationName producerName = Js.Throw ex)
    /\ (forall stationName consumerName consumerGroup i b t,
           consumer m http stationName consumerName consumerGroup i b t = Js.Throw ex).
Proof.
  intros m http ex Ha Hx. unfold factory, station, producer, consumer, guarded.
  rewrite Ha. cbn [negb]. repeat split; intros; now rewrite Hx.
Qed.

Lemma failed_request_is_rethrown_witness :
  let m := Memphis.set_isConnectionActive true Memphis.constructor in
  factory m (refusing (Js.External 500)) "billing" None = Js.Throw (Js.External 500).
Proof.
  intro m.
  apply (failed_request_is_rethrown m (refusing (Js.External 500)) (Js.External 500));
    reflexivity.
Defined.

(** X5.  [consumer] never returns a handle: it fails with the connection
    error, with the error of the creation request, or, once the request is
    accepted, with the exception thrown by the constructor. *)
Theorem consumer_never_returns :
  forall (m : Memphis.obj) (http : Http.client)
         (stationName consumerName : string) (consumerGroup : option string)
         (i b t : option Z),
    consumer m http stationName consumerName consumerGroup i b t
    = (if negb (Memphis.isConnectionActive m)
       then Js.Throw (Js.Error "Connection is dead")
       else match http (consumer_request m stationName consumerName
                                         (Js.default EmptyString consumerGroup)) with
            | Js.Throw ex => Js.Throw ex
            | Js.Normal _ => Js.Throw (Js.ReferenceError "nanos is not defined")
            end)
    /\ exists e, consumer m http stationName consumerName consumerGroup i b t
                 = Js.Throw e.
Proof.
  intros. unfold consumer, guarded.
  destruct (negb (Memphis.isConnectionActive m));
    [split; [reflexivity | eexists; reflexivity]|].
  destruct (http _); (split; [reflexivity | eexists; reflexivity]).
Qed.

(** X6.  A factory or station handle obtained from [factory] or [station]
    asks, when destroyed, for the removal of the lower-cased name found in
    the answer to the creation request, whatever name the caller gave. *)
Theorem removal_names_the_answer :
  forall (m m' : Memphis.obj) (http : Http.client),
    (forall name description f,
        factory m http name description = Js.Normal f ->
        exists response,
          http (factory_request m name (Js.default EmptyString description))
          = Js.Normal response
          /\ Http.bodyParams (Factory.destroy f m')
             = [ ("factory_name"%string,
                  Js.Str (Js.toLowerCase (Http.name response))) ])
    /\ (forall name factoryName rt rv st rp de dw s,
           station m http name factoryName rt rv st rp de dw = Js.Normal s ->
           exists response,
             http (station_request m name factoryName
                     (Js.default retentionTypes_MAX_MESSAGE_AGE_SECONDS rt)
                     (Js.default 604800 rv) (Js.default storageTypes_FILE st)
                     (Js.default 1 rp) (Js.default false de) (Js.default 0 dw))
             = Js.Normal response
             /\ Http.bodyParams (Station.destroy s m')
                = [ ("station_name"%string,
                     Js.Str (Js.toLowerCase (Http.name response))) ]).
Proof.
  intros m m' http. split.
  - intros name description f H.
    destruct (factory_handle _ _ _ _ _ H) as (response & Hr & ->).
    exists response. split; [exact Hr | reflexivity].
  - intros name factoryName rt rv st rp de dw s H.
    destruct (station_handle _ _ _ _ _ _ _ _ _ _ _ H) as (response & Hr & ->).
    exists response. split; [exact Hr | reflexivity].
Qed.

(** The caller asks for [ORDERS], the control plane answers [Orders-1]: the
    removal request names [orders-1]. *)
Lemma removal_names_the_answer_witness :
  let m := Memphis.set_isConnectionActive true Memphis.constructor in
  exists s,
    station m (accepting "Orders-1") "ORDERS" "billing" None None None None None None
    = Js.Normal s
    /\ Http.bodyParams (Station.destroy s m)
       = [ ("station_name"%string, Js.Str "orders-1") ].
Proof.
  intro m. eexists. split; [reflexivity|].
  destruct (proj2 (removal_names_the_answer m m (accepting "Orders-1"))
              "ORDERS"%string "billing"%string None None None None None None
              _ eq_refl) as (response & Hr & H).
  injection Hr as <-. exact H.
Defined.

(* ------------------------------------------------------------------ *)
(** ** Consumer teardown *)

Lemma no_listener_after_removal (event : string) (e : Events.EventEmitter) :
  Events.listeners event (Events.removeAllListeners event e) = [].
Proof.
  unfold Events.listeners, Events.removeAllListeners.
  induction e as [|[ev l] e IH]; cbn; [reflexivity|].
  destruct (String.eqb_spec ev event) as [->|Hne]; cbn; [exact IH|].
  destruct (String.eqb_spec ev event); [contradiction | exact IH].
Qed.

Lemma removal_commutes (a b : string) (e : Events.EventEmitter) :
  Events.removeAllListeners a (Events.removeAllListeners b e)
  = Events.removeAllListeners b (Events.removeAllListeners a e).
Proof.
  unfold Events.removeAllListeners.
  induction e as [|[ev l] e IH]; cbn; [reflexivity|].
  destruct (ev =? b)%string eqn:Eb, (ev =? a)%string eqn:Ea; cbn;
    rewrite ?Ea, ?Eb; cbn; now rewrite IH.
Qed.

(** X7.  After [Consumer.destroy] the emitter of the session has no
    ['message'] and no ['error'] listener left: the delivery loop calls
    nobody, whatever it is given, and a failure reported afterwards is
    thrown.  The handle returned for [clearInterval] is the stored
    [pullInterval], and the names sent are the stored ones. *)
Theorem consumer_destroy_silences :
  forall (c : Consumer.t) (m : Memphis.obj) (ms : list nat) (error : Js.exn),
    let c' := fst (fst (Consumer.destroy c m)) in
    Consumer.deliver c' ms = []
    /\ Consumer.failed c' error = Js.Throw error
    /\ snd (fst (Consumer.destroy c m)) = Consumer.pullInterval c
    /\ Http.bodyParams (snd (Consumer.destroy c m))
       = [ ("name"%string, Js.Str (Consumer.consumerName c));
           ("station_name"%string, Js.Str (Consumer.stationName c)) ].
Proof.
  intros c m ms error c'. repeat split.
  - subst c'. induction ms as [|x ms IH]; cbn [Consumer.deliver]; [reflexivity|].
    rewrite IH. unfold Events.emit. cbn [Consumer.destroy fst Consumer.eventEmitter].
    rewrite removal_commutes, no_listener_after_removal. reflexivity.
  - subst c'. unfold Consumer.failed, Events.emit_error.
    cbn [Consumer.destroy fst Consumer.eventEmitter].
    now rewrite no_listener_after_removal.
Qed.

(* ------------------------------------------------------------------ *)
(** ** The connection manager, further *)

(** X8.  The first connection of a fresh manager.  After [connect], the
    socket's ['connect'] event and the authentication response, the
    collaborators have seen exactly: the socket asked for the stored host and
    the port, the handshake with the user name, the token and a null
    connection id, and [broker.connect] called with the normalised broker
    address, the reconnect policy with its cap (0 attempts when reconnection
    is off) and the token.  The manager is active and holds the credentials
    of the response; the promise is pending, and it is the outcome of
    [broker.connect] that resolves it, storing the connection, or rejects
    it. *)
Theorem first_connection :
  forall (c : Config.t) (d : Net.response) (nc : nat) (ex : Js.exn),
    let w := run [AppConnect c; Connected; Data (Some d)] init in
    let reconnect := Js.default true (Config.reconnect c) in
    let cap := Z.min (Js.default 3 (Config.maxReconnect c)) 9 in
    trace w
    = [ SocketConnect (Js.default 9000 (Config.port c))
                      (_normalizeHost (Config.host c) ++ "/tcp");
        SocketWrite (Net.Handshake (Js.Str (Config.username c))
                                   (Js.Str (Config.connectionToken c)) Js.Null);
        BrokerConnect
          {| servers := _normalizeHost (Config.brokerHost c) ++ ":"
                          ++ Js.number (Js.default 7766 (Config.brokerPort c));
             bo_reconnect := reconnect;
             maxReconnectAttempts := if reconnect then cap else 0;
             reconnectTimeWait := Js.default 200 (Config.reconnectIntervalMs c);
             timeout := Js.default 15000 (Config.timeoutMs c);
             token := Js.Str (Config.connectionToken c) |} ]
    /\ Memphis.isConnectionActive (memphis w) = true
    /\ Memphis.connectionId (memphis w) = Net.connection_id d
    /\ Memphis.accessToken (memphis w) = Net.access_token d
    /\ Memphis.maxReconnect (memphis w) = cap
    /\ state_of 0 w = Js.Pending
    /\ (let w' := step (BrokerConnected 0 nc) w in
        state_of 0 w' = Js.Resolved
        /\ Memphis.brokerConnection (memphis w') = Some nc)
    /\ (let w' := step (BrokerFailed 0 ex) w in
        state_of 0 w' = Js.Rejected ex
        /\ Memphis.brokerConnection (memphis w') = None).
Proof.
  intros c d nc ex w reconnect cap. subst w reconnect cap.
  rewrite <- cap_is_min. repeat split.
Qed.

(** X9.  [close] twice is [close] once, but for the second [destroy] of the
    socket: the manager, the timers, the promises and the suspended handlers
    are those left by the first call. *)
Theorem close_is_idempotent :
  forall w : World,
    memphis (close (close w)) = memphis (close w)
    /\ timers (close (close w)) = timers (close w)
    /\ promises (close (close w)) = promises (close w)
    /\ connecting (close (close w)) = connecting (close w)
    /\ trace (close (close w)) = (trace (close w) ++ [SocketDestroy])%list.
Proof.
  intros [m ts nt ps cs rs tr]. destruct m. unfold close; cbn.
  destruct accessTokenTimeout; cbn; repeat split.
Qed.

(** X10.  Once [close] has run, what the socket still emits is ignored: a
    ['close'], an ['error'] or a ['data'] event leaves the whole world as
    [close] left it; in particular no reconnection is scheduled. *)
Theorem closed_manager_ignores_socket :
  forall (w : World) (d : option Net.response),
    step Closed (close w) = close w
    /\ step SocketError (close w) = close w
    /\ step (Data d) (close w) = close w.
Proof.
  intros [m ts nt ps cs rs tr] d. destruct m. unfold close; cbn.
  destruct accessTokenTimeout; destruct d; cbn; repeat split.
Qed.

Lemma find_after_filter (id : nat) (ts : list timer) :
  find (fun t => Nat.eqb (timer_id t) id)
       (filter (fun t => negb (Nat.eqb (timer_id t) id)) ts) = None.
Proof.
  induction ts as [|t ts IH]; cbn; [reflexivity|].
  destruct (Nat.eqb (timer_id t) id) eqn:E; cbn; [exact IH|].
  now rewrite E.
Qed.

(** X11.  [close] cancels the refresh timer the manager holds: if that timer
    is later reported as fired, nothing happens.  And a refresh timer that
    does run writes the refresh request exactly when the connection is
    active; on an inactive manager it writes nothing. *)
Theorem refresh_after_close :
  forall (w : World) (id : nat),
    (Memphis.accessTokenTimeout (memphis w) = Some id ->
     step (Fired id) (close w) = close w)
    /\ (forall t,
           find (fun t => Nat.eqb (timer_id t) id) (timers w) = Some t ->
           todo t = RefreshToken ->
           trace (step (Fired id) w)
           = if Memphis.isConnectionActive (memphis w)
             then (trace w ++ [SocketWrite Net.ResendAccessToken])%list
             else trace w).
Proof.
  intros w id. split.
  - intros H. destruct w as [m ts nt ps cs rs tr]. destruct m.
    cbn in H. subst accessTokenTimeout. unfold close; cbn.
    now rewrite find_after_filter.
  - intros t F E. cbn [step]. rewrite F. unfold run_timer. rewrite E.
    unfold on_refresh. cbn. destruct (Memphis.isConnectionActive (memphis w)); reflexivity.
Qed.

Lemma refresh_after_close_witness :
  let w := run [AppConnect local_config; Connected; Data (Some granted)] init in
  step (Fired 1) (close w) = close w.
Proof.
  intro w. apply (proj1 (refresh_after_close w 1)). reflexivity.
Defined.



(** X13.  What the timeout of [connect] does when it fires.  With
    reconnection on, a counter different from the [maxReconnect] given to
    the call and an active connection, it changes no promise.  With
    [reconnect: false] it rejects the promise whenever that is still
    pending, active connection or not. *)
Theorem timeout_when_fired :
  forall (w : World) (id : nat) (t : timer) (p : nat) (r : bool) (mx : Z),
    find (fun t => Nat.eqb (timer_id t) id) (timers w) = Some t ->
    todo t = ConnectTimeout p r mx ->
    (r = true ->
     Memphis.reconnectAttempts (memphis w) <> mx ->
     Memphis.isConnectionActive (memphis w) = true ->
     promises (step (Fired id) w) = promises w)
    /\ (r = false ->
        (p < List.length (promises w))%nat ->
        state_of p w = Js.Pending ->
        state_of p (step (Fired id) w) = Js.Rejected ConnectionTimeout).
Proof.
  intros w id t p r mx F E. cbn [step]. rewrite F. unfold run_timer. rewrite E.
  unfold on_timeout. cbn [memphis set_timers]. split.
  - intros -> Hne Ha. rewrite Ha. apply Z.eqb_neq in Hne. rewrite Hne. reflexivity.
  - intros -> Hp Hs. cbn [negb orb]. unfold reject.
    now apply state_settle_pending.
Qed.

Lemma timeout_when_fired_witness :
  let c := {| Config.host := "localhost"; Config.port := None;
              Config.username := "app"; Config.brokerHost := "localhost";
              Config.brokerPort := None; Config.connectionToken := "memphis";
              Config.reconnect := Some false; Config.maxReconnect := None;
              Config.reconnectIntervalMs := None; Config.timeoutMs := None |} in
  let w := run [AppConnect c; Connected; Data (Some granted)] init in
  Memphis.isConnectionActive (memphis w) = true
  /\ state_of 0 (step (Fired 0) w) = Js.Rejected ConnectionTimeout.
Proof.
  intros c w. split; [reflexivity|].
  refine (proj2 (timeout_when_fired w 0
                   {| timer_id := 0; delay := 15000;
                      todo := ConnectTimeout 0 false 3 |} 0 false 3 _ _) _ _ _);
    try reflexivity.
  cbn. lia.
Defined.

(* ------------------------------------------------------------------ *)
(** ** Promises over a run *)

Lemma length_step (e : event) (w : World) :
  (List.length (promises w) <= List.length (promises (step e w)))%nat.
Proof.
  destruct e as [c| | |d| | |id|k nc|k ex].
  - cbn [step]. rewrite length_connect. lia.
  - cbn [step]. now rewrite promises_close.
  - now rewrite promises_dispatch_connect.
  - now rewrite promises_dispatch_data.
  - cbn [step]. destruct (Net.onError _); cbn; lia.
  - cbn [step]. destruct (Net.onClose _); [|lia]. now rewrite promises_on_close.
  - cbn [step]. destruct (find _ (timers w)) as [t|]; [|lia].
    set (w0 := set_timers _ w).
    change (promises w) with (promises w0). clearbody w0.
    unfold run_timer. destruct (todo t) as [q r m| |].
    + unfold on_timeout. destruct (_ || _); [|lia].
      unfold reject. rewrite length_settle. lia.
    + unfold on_reconnect.
      pose proof (length_connect (reconnect_options (memphis w0)) w0) as E.
      destruct (connect _ _) as [w1 q]. cbn [fst] in E.
      assert (forall s, promises (after_reconnect s w1) = promises w1)
        by (intros []; reflexivity).
      destruct (state_of q w1); rewrite ?H; cbn; lia.
    + unfold on_refresh. destruct (Memphis.isConnectionActive _); cbn; lia.
  - cbn [step]. unfold settle_broker. destruct (nth_error _ _); [|lia].
    unfold after_broker_connect, resolve. rewrite length_settle. cbn. lia.
  - cbn [step]. unfold settle_broker. destruct (nth_error _ _); [|lia].
    unfold after_broker_connect, reject. rewrite length_settle. cbn. lia.
Qed.

Lemma length_run (es : list event) (w : World) :
  (List.length (promises w) <= List.length (promises (run es w)))%nat.
Proof.
  revert w; induction es as [|e es IH]; intros w; cbn [run]; [lia|].
  pose proof (length_step e w). specialize (IH (step e w)). lia.
Qed.

(** X14.  A promise is settled once and for all: whatever events follow, a
    promise that is resolved stays resolved and one that is rejected keeps
    its error (a late answer or a late timeout changes nothing), and no
    promise is ever dropped. *)
Theorem settled_promise_is_final :
  forall (p : nat) (es : list event) (w : World),
    state_of p w <> Js.Pending ->
    state_of p (run es w) = state_of p w
    /\ (p < List.length (promises (run es w)))%nat.
Proof.
  intros p es w H. split; [now apply settled_run|].
  pose proof (settled_is_allocated p w H). pose proof (length_run es w). lia.
Qed.

Lemma settled_promise_is_final_witness :
  let w := run [AppConnect local_config; Fired 0] init in
  state_of 0 (run [Connected; Data (Some granted); BrokerConnected 0 7] w)
  = Js.Rejected ConnectionTimeout.
Proof.
  intro w.
  refine (proj1 (settled_promise_is_final 0
                   [Connected; Data (Some granted); BrokerConnected 0 7] w _)).
  discriminate.
Defined.

Lemma rejection_never_resolves (p q : nat) (e : Js.exn) (w : World) :
  state_of p w <> Js.Resolved ->
  state_of p (settle q (Js.Rejected e) w) <> Js.Resolved.
Proof.
  intros H. destruct (Nat.eq_dec p q) as [->|Hne];
    [|now rewrite state_settle_other].
  destruct (state_of q w) eqn:S.
  - intros R.
    assert (Hq : (q < List.length (promises w))%nat).
    { rewrite <- (length_settle q (Js.Rejected e) w).
      apply settled_is_allocated. rewrite R. discriminate. }
    rewrite state_settle_pending in R by assumption. discriminate.
  - congruence.
  - rewrite state_settle_settled; rewrite S; discriminate.
Qed.

Lemma unresolved_step (p : nat) (e : event) (w : World) :
  (p < List.length (promises w))%nat ->
  state_of p w <> Js.Resolved ->
  (forall k nc, e = BrokerConnected k nc -> nth_error (connecting w) k <> Some p) ->
  state_of p (step e w) <> Js.Resolved.
Proof.
  intros Hp H Hk. destruct e as [c| | |d| | |id|k nc|k ex].
  - cbn [step]. now rewrite state_connect.
  - unfold state_of. cbn [step]. now rewrite promises_close.
  - unfold state_of. now rewrite promises_dispatch_connect.
  - unfold state_of. now rewrite promises_dispatch_data.
  - cbn [step]. destruct (Net.onError _); exact H.
  - cbn [step]. destruct (Net.onClose _); [|exact H].
    unfold state_of. now rewrite promises_on_close.
  - cbn [step]. destruct (find _ (timers w)) as [t|]; [|exact H].
    set (w0 := set_timers _ w).
    change (state_of p w) with (state_of p w0) in H.
    change (promises w) with (promises w0) in Hp. clearbody w0.
    unfold run_timer. destruct (todo t) as [q r m| |].
    + unfold on_timeout. destruct (_ || _); [|exact H].
      unfold reject. now apply rejection_never_resolves.
    + unfold on_reconnect.
      pose proof (state_connect (reconnect_options (memphis w0)) w0 p Hp) as E.
      destruct (connect _ _) as [w1 q]. cbn [fst] in E.
      assert (forall s, state_of p (after_reconnect s w1) = state_of p w1)
        by (intros []; reflexivity).
      destruct (state_of q w1); rewrite ?H0; unfold state_of in *; cbn;
        congruence.
    + unfold on_refresh. destruct (Memphis.isConnectionActive _); exact H.
  - cbn [step]. unfold settle_broker.
    destruct (nth_error _ _) as [q|] eqn:E; [|exact H].
    assert (q <> p) by (intros ->; now apply (Hk k nc eq_refl)).
    unfold after_broker_connect, resolve. now rewrite state_settle_other.
  - cbn [step]. unfold settle_broker.
    destruct (nth_error _ _) as [q|] eqn:E; [|exact H].
    unfold after_broker_connect, reject. now apply rejection_never_resolves.
Qed.

(** Only a parsed answer suspends a handler at [broker.connect]. *)
Lemma connecting_stays (p : nat) (e : event) (w : World) :
  (forall d, e <> Data (Some d)) ->
  ~ In p (connecting w) -> ~ In p (connecting (step e w)).
Proof.
  intros He H. destruct e as [c| | |[d|]| | |id|k nc|k ex]; cbn [step].
  - now rewrite connecting_connect.
  - unfold close; cbn. destruct (Memphis.accessTokenTimeout (memphis w)); exact H.
  - apply (fold_left_keeps (fun w' => ~ In p (connecting w'))); [|exact H].
    intros w0 cb H0. exact H0.
  - now contradiction (He d).
  - exact H.
  - destruct (Net.onError _); exact H.
  - destruct (Net.onClose _); [|exact H].
    unfold on_close, _close; cbn. destruct (_ && _); [exact H|].
    destruct (Memphis.accessTokenTimeout (memphis w)); exact H.
  - destruct (find _ (timers w)) as [t|]; [|exact H].
    set (w0 := set_timers _ w).
    change (connecting w) with (connecting w0) in H. clearbody w0.
    unfold run_timer. destruct (todo t) as [q r m| |].
    + unfold on_timeout. destruct (_ || _); [|exact H].
      unfold reject. now rewrite connecting_settle.
    + unfold on_reconnect.
      pose proof (connecting_connect (reconnect_options (memphis w0)) w0) as E.
      destruct (connect _ _) as [w1 q]. cbn [fst] in E.
      assert (forall s, connecting (after_reconnect s w1) = connecting w1)
        by (intros []; reflexivity).
      destruct (state_of q w1); rewrite ?H0; cbn; now rewrite E.
    + unfold on_refresh. destruct (Memphis.isConnectionActive _); exact H.
  - unfold settle_broker. destruct (nth_error _ _); [|exact H].
    unfold after_broker_connect, resolve. rewrite connecting_settle. cbn.
    intros Hin. apply H. eapply In_remove_nth; eauto.
  - unfold settle_broker. destruct (nth_error _ _); [|exact H].
    unfold after_broker_connect, reject. rewrite connecting_settle. cbn.
    intros Hin. apply H. eapply In_remove_nth; eauto.
Qed.

Lemma fresh_promise_pending (c : Config.t) (w : World) :
  state_of (List.length (promises w)) (fst (connect (Config.to_options c) w))
  = Js.Pending.
Proof.
  unfold state_of, connect.
  cbn [Config.to_options Options.host Options.brokerHost call_normalizeHost fst].
  cbn. rewrite app_nth2, Nat.sub_diag by lia. reflexivity.
Qed.

(** X15.  The promise of [connect] is resolved by nothing but the success of
    [broker.connect] in a handler that received the authentication
    response: along a run without such a success, or without a parsed
    answer from the control plane, it is never resolved. *)
Theorem resolves_only_after_transport :
  forall (c : Config.t) (w : World) (es : list event),
    reachable w ->
    (forall k nc, ~ In (BrokerConnected k nc) es)
    \/ (forall d, ~ In (Data (Some d)) es) ->
    let w1 := fst (connect (Config.to_options c) w) in
    let p := snd (connect (Config.to_options c) w) in
    state_of p (run es w1) <> Js.Resolved.
Proof.
  intros c w es Hr Hes w1 p.
  assert (Ep : p = List.length (promises w)) by apply snd_connect.
  assert (Hp : (p < List.length (promises w1))%nat).
  { subst w1. rewrite length_connect. lia. }
  assert (Hs : state_of p w1 <> Js.Resolved).
  { subst w1. rewrite Ep, fresh_promise_pending. discriminate. }
  assert (Hc : ~ In p (connecting w1)).
  { subst w1. rewrite connecting_connect.
    destruct (reachable_well_formed w Hr) as (_ & _ & Wc & _).
    intros Hin. rewrite Forall_forall in Wc. specialize (Wc _ Hin). lia. }
  clearbody w1 p. clear Ep Hr. destruct Hes as [Hes|Hes].
  - clear Hc. revert w1 Hp Hs.
    induction es as [|e es IH]; intros w1 Hp Hs; cbn [run]; [exact Hs|].
    apply IH.
    + intros k nc H. apply (Hes k nc). now right.
    + pose proof (length_step e w1); lia.
    + apply unresolved_step; auto.
      intros k nc ->. contradiction (Hes k nc). now left.
  - revert w1 Hp Hs Hc.
    induction es as [|e es IH]; intros w1 Hp Hs Hc; cbn [run]; [exact Hs|].
    assert (Hn : forall d, e <> Data (Some d)).
    { intros d ->. apply (Hes d). now left. }
    apply IH.
    + intros d H. apply (Hes d). now right.
    + pose proof (length_step e w1); lia.
    + apply unresolved_step; auto.
      intros k nc -> E. apply Hc. eapply nth_error_In; eauto.
    + now apply connecting_stays.
Qed.

Lemma resolves_only_after_transport_witness :
  let w1 := fst (connect (Config.to_options local_config) init) in
  state_of 0 (run [Connected; Data (Some granted); BrokerFailed 0 (Js.External 1)] w1)
  <> Js.Resolved.
Proof.
  intro w1.
  apply (resolves_only_after_transport local_config init
           [Connected; Data (Some granted); BrokerFailed 0 (Js.External 1)]).
  - exists []. reflexivity.
  - left. intros k nc [H|[H|[H|[]]]]; discriminate H.
Defined.

(* ------------------------------------------------------------------ *)
(** ** Answers, closes and calls that go wrong *)

Lemma dispatch_data (d : Net.response) (l : list nat) :
  forall w,
    let w' := fold_left (fun w p => on_data d p w) l w in
    timers w' = (timers w ++ refresh_timers (nextTimer w) (Net.access_token_exp d)
                                            (List.length l))%list
    /\ nextTimer w' = (nextTimer w + List.length l)%nat
    /\ connecting w' = (connecting w ++ l)%list
    /\ promises w' = promises w.
Proof.
  induction l as [|p l IH]; intros w; cbn [fold_left List.length].
  - cbn. rewrite !app_nil_r, Nat.add_0_r. repeat split.
  - destruct (IH (on_data d p w)) as (Ht & Hn & Hc & Hp). cbv zeta.
    rewrite Ht, Hn, Hc, Hp.
    rewrite timers_on_data, nextTimer_on_data, connecting_on_data, promises_on_data.
    rewrite <- !app_assoc. repeat split; lia.
Qed.

(** X16.  Every parsed answer, the first one as well as each answer to a
    refresh request, makes each ['data'] handler arm a new refresh timer of
    [access_token_exp] and call [broker.connect] again: the timers armed
    before are all kept, one timer and one suspended handler are added per
    handler, and the handle stored is that of the last timer armed. *)
Theorem every_answer_rearms :
  forall (w : World) (d : Net.response),
    let l := Net.onData (Memphis.client (memphis w)) in
    let w' := step (Data (Some d)) w in
    timers w' = (timers w ++ refresh_timers (nextTimer w) (Net.access_token_exp d)
                                            (List.length l))%list
    /\ connecting w' = (connecting w ++ l)%list
    /\ (l <> [] ->
        Memphis.accessTokenTimeout (memphis w')
        = Some (nextTimer w + List.length l - 1)%nat).
Proof.
  intros w d l w'. subst w'. cbn [step]. fold l.
  destruct (dispatch_data d l w) as (Ht & Hn & Hc & _). cbv zeta in Ht, Hn, Hc.
  split; [exact Ht|]. split; [exact Hc|].
  intros Hl. clear Ht Hn Hc. clearbody l. revert w.
  induction l as [|p l IH]; intros w; [congruence|].
  cbn [fold_left List.length]. destruct l as [|q l].
  - cbn. f_equal. lia.
  - rewrite IH by discriminate. rewrite nextTimer_on_data. f_equal.
    cbn [List.length]. lia.
Qed.

Lemma every_answer_rearms_witness :
  let w := run [AppConnect local_config; Connected; Data (Some granted)] init in
  Memphis.accessTokenTimeout (memphis (step (Data (Some granted)) w)) = Some 2%nat
  /\ List.length (timers (step (Data (Some granted)) w)) = 3%nat.
Proof.
  intro w.
  destruct (every_answer_rearms w granted) as (Ht & _ & Hh).
  split.
  - apply Hh. discriminate.
  - rewrite Ht. reflexivity.
Defined.

(** One ['close'] event while attempts are left: only the counter and the
    timers move. *)
Lemma close_event_retries (w : World) :
  Net.onClose (Memphis.client (memphis w)) = true ->
  Memphis.reconnect (memphis w) = true ->
  counter w < limit w ->
  let w' := step Closed w in
  counter w' = counter w + 1
  /\ limit w' = limit w
  /\ Memphis.reconnect (memphis w') = true
  /\ Memphis.reconnectIntervalMs (memphis w') = Memphis.reconnectIntervalMs (memphis w)
  /\ Memphis.client (memphis w') = Memphis.client (memphis w)
  /\ nextTimer w' = S (nextTimer w)
  /\ timers w'
     = (timers w ++ reconnect_timers (nextTimer w)
                      (Memphis.reconnectIntervalMs (memphis w)) 1)%list.
Proof.
  unfold counter, limit. intros Hc Hr Hl. cbn [step]. rewrite Hc.
  unfold on_close, _close. cbn. rewrite Hr.
  apply Z.ltb_lt in Hl. rewrite Hl. cbn. repeat split. exact Hr.
Qed.

(** One ['close'] event when reconnection is off or no attempt is left. *)
Lemma close_event_gives_up (w : World) :
  Net.onClose (Memphis.client (memphis w)) = true ->
  Memphis.reconnect (memphis w) && (counter w <? limit w) = false ->
  step Closed w = close w.
Proof.
  unfold counter, limit. intros Hc H. cbn [step]. rewrite Hc.
  unfold on_close, _close. cbn. rewrite H.
  destruct w as [m ts nt ps cs rs tr]. destruct m. cbn.
  destruct accessTokenTimeout; reflexivity.
Qed.

(** X17.  With the ['close'] handler attached and reconnection on, a manager
    whose counter is below [maxReconnect] by [n] schedules one reconnect,
    of delay [reconnectIntervalMs], per socket close: after [n] closes the
    counter has reached [maxReconnect], exactly [n] reconnect timers have
    been added and the handler is still attached; the next close is final
    and does what [close] does. *)
Theorem attempts_run_out :
  forall (n : nat) (w : World),
    Net.onClose (Memphis.client (memphis w)) = true ->
    Memphis.reconnect (memphis w) = true ->
    limit w - counter w = Z.of_nat n ->
    let w' := run (repeat Closed n) w in
    counter w' = limit w
    /\ timers w'
       = (timers w ++ reconnect_timers (nextTimer w)
                        (Memphis.reconnectIntervalMs (memphis w)) n)%list
    /\ Net.onClose (Memphis.client (memphis w')) = true
    /\ step Closed w' = close w'.
Proof.
  induction n as [|n IH]; intros w Hc Hr Hn; cbn [repeat run].
  - split; [lia|]. split; [cbn; now rewrite app_nil_r|]. split; [exact Hc|].
    apply close_event_gives_up; [exact Hc|].
    rewrite Hr. cbn. apply Z.ltb_ge. lia.
  - destruct (close_event_retries w Hc Hr) as (Ha & Hl & Hr' & Hi & Hs & Hnt & Ht);
      [lia|].
    cbv zeta in *.
    destruct (IH (step Closed w)) as (I1 & I2 & I3 & I4).
    + now rewrite Hs.
    + exact Hr'.
    + rewrite Ha, Hl. lia.
    + cbv zeta in *. rewrite Hl in I1. rewrite Ht, Hnt, Hi in I2.
      split; [exact I1|]. split; [|split; [exact I3 | exact I4]].
      rewrite I2, <- app_assoc. reflexivity.
Qed.

Lemma attempts_run_out_witness :
  let w := step (AppConnect local_config) init in
  counter (run (repeat Closed 3) w) = 3
  /\ step Closed (run (repeat Closed 3) w) = close (run (repeat Closed 3) w).
Proof.
  intro w.
  destruct (attempts_run_out 3 w) as (H1 & _ & _ & H4); try reflexivity.
  split; [exact H1 | exact H4].
Defined.

Lemma reconnect_after_connect (c : Config.t) (w : World) :
  Memphis.reconnect (memphis (fst (connect (Config.to_options c) w)))
  = Js.default true (Config.reconnect c).
Proof. reflexivity. Qed.

Lemma close_detaches (w : World) :
  Net.onClose (Memphis.client (memphis (close w))) = false
  /\ (forall t, In t (timers (close w)) -> In t (timers w)).
Proof.
  destruct w as [m ts nt ps cs rs tr]. destruct m. unfold close; cbn.
  destruct accessTokenTimeout; cbn; split; auto.
  intros t H. now apply filter_In in H.
Qed.

(** X18.  A configuration with [reconnect: false], or with a [maxReconnect]
    that is not positive, gets no retry: with the ['close'] handler
    attached, the first socket close after [connect] does what [close]
    does; the listeners are removed and no timer is added. *)
Theorem no_retry_when_disabled :
  forall (c : Config.t) (w : World),
    reachable w ->
    Net.onClose (Memphis.client (memphis w)) = true ->
    Config.reconnect c = Some false \/ Js.default 3 (Config.maxReconnect c) <= 0 ->
    let w1 := step (AppConnect c) w in
    step Closed w1 = close w1
    /\ Net.onClose (Memphis.client (memphis (step Closed w1))) = false
    /\ (forall t, In t (timers (step Closed w1)) -> In t (timers w1)).
Proof.
  intros c w Hr Hc Hd w1.
  assert (E : step Closed w1 = close w1).
  { apply close_event_gives_up.
    - subst w1. cbn [step].
      destruct (client_connect (Config.to_options c) w) as (_ & Ho & _).
      cbv zeta in Ho. now rewrite Ho.
    - subst w1. cbn [step]. rewrite reconnect_after_connect.
      unfold counter, limit. rewrite attempts_connect, maxReconnect_connect.
      cbn [Config.to_options Options.host Options.brokerHost call_normalizeHost
           Options.maxReconnect].
      destruct Hd as [->|Hd]; [reflexivity|].
      destruct (counter_at_most_nine w Hr) as [[H0 _] _]. unfold counter in H0.
      apply andb_false_iff. right. apply Z.ltb_ge. lia. }
  split; [exact E|]. rewrite E. apply close_detaches.
Qed.

Lemma no_retry_when_disabled_witness :
  let w1 := step (AppConnect zero_config) init in
  step Closed w1 = close w1.
Proof.
  intro w1.
  refine (proj1 (no_retry_when_disabled zero_config init _ _ _)).
  - exists []. reflexivity.
  - reflexivity.
  - right. cbn. lia.
Defined.

Lemma socket_connects_settle (p : nat) (s : Js.promise) (w : World) :
  filter is_socket_connect (trace (settle p s w)) = filter is_socket_connect (trace w).
Proof.
  unfold settle. destruct (state_of p w); try reflexivity.
  cbn. destruct (existsb _ _); [|reflexivity].
  destruct s; cbn; rewrite ?filter_app; cbn; now rewrite ?app_nil_r.
Qed.

Lemma reject_fresh (e : Js.exn) (w w0 : World) :
  promises w0 = (promises w ++ [Js.Pending])%list ->
  state_of (List.length (promises w)) (reject (List.length (promises w)) e w0)
  = Js.Rejected e.
Proof.
  intros E. unfold reject. apply state_settle_pending.
  - rewrite E, length_app. cbn. lia.
  - unfold state_of. rewrite E, app_nth2, Nat.sub_diag by lia. reflexivity.
Qed.

(** X19.  When the [host] or the [brokerHost] given to [connect] is not a
    string, the promise is rejected at once with a [TypeError]: the socket
    is not asked to connect, no callback is registered on it, and the
    reconnect policy, the ports and the credentials of the manager are
    left as they were.  Only the timeout timer has been armed. *)
Theorem connect_without_hosts :
  forall (o : Options.t) (w : World),
    (forall s, Options.host o <> Js.Str s)
    \/ (forall s, Options.brokerHost o <> Js.Str s) ->
    let w' := fst (connect o w) in
    let p := snd (connect o w) in
    let m := memphis w in
    let m' := memphis w' in
    (exists msg, state_of p w' = Js.Rejected (Js.TypeError msg))
    /\ filter is_socket_connect (trace w') = filter is_socket_connect (trace w)
    /\ Memphis.client m' = Memphis.client m
    /\ Memphis.reconnect m' = Memphis.reconnect m
    /\ Memphis.maxReconnect m' = Memphis.maxReconnect m
    /\ Memphis.port m' = Memphis.port m
    /\ Memphis.brokerHost m' = Memphis.brokerHost m
    /\ Memphis.connectionToken m' = Memphis.connectionToken m
    /\ timers w' = (timers w ++ [timeout_timer o w])%list.
Proof.
  intros o w H w' p m m'. subst w' p m m'.
  rewrite timers_connect. unfold connect.
  destruct (call_normalizeHost (Options.host o)) as [h|e1] eqn:E1; cbn [fst snd].
  - destruct (call_normalizeHost (Options.brokerHost o)) as [b|e2] eqn:E2; cbn [fst snd].
    + exfalso. destruct H as [H|H].
      * destruct (Options.host o); try discriminate E1. now apply (H s).
      * destruct (Options.brokerHost o); try discriminate E2. now apply (H s).
    + split.
      * exists (match e2 with Js.TypeError msg => msg | _ => EmptyString end).
        rewrite reject_fresh by reflexivity.
        destruct (Options.brokerHost o); try discriminate E2;
          injection E2 as <-; reflexivity.
      * unfold reject. rewrite socket_connects_settle, !memphis_settle.
        repeat split.
  - split.
    + exists (match e1 with Js.TypeError msg => msg | _ => EmptyString end).
      rewrite reject_fresh by reflexivity.
      destruct (Options.host o); try discriminate E1;
        injection E1 as <-; reflexivity.
    + unfold reject. rewrite socket_connects_settle, !memphis_settle.
      repeat split.
Qed.

(** The options of the reconnect callback are such a call. *)
Lemma connect_without_hosts_witness :
  let w := run [AppConnect local_config; Connected; Data (Some granted); Closed] init in
  let o := reconnect_options (memphis w) in
  filter is_socket_connect (trace (fst (connect o w)))
  = filter is_socket_connect (trace w).
Proof.
  intros w o.
  refine (proj1 (proj2 (connect_without_hosts o w _))).
  right. intros s. discriminate.
Defined.

(** X20.  A socket close marks the connection inactive whether a reconnect
    is scheduled or not, so that from then on the resource methods refuse
    to work, whatever the control plane would answer. *)
Theorem socket_close_deactivates :
  forall (w : World) (http : Http.client),
    Net.onClose (Memphis.client (memphis w)) = true ->
    let m := memphis (step Closed w) in
    Memphis.isConnectionActive m = false
    /\ (forall name description,
           factory m http name description = Js.Throw (Js.Error "Connection is dead"))
    /\ (forall stationName producerName,
           producer m http stationName producerName
           = Js.Throw (Js.Error "Connection is dead")).
Proof.
  intros w http Hc m.
  assert (H : Memphis.isConnectionActive m = false).
  { subst m. cbn [step]. rewrite Hc. unfold on_close, _close; cbn.
    destruct (_ && _); cbn; [reflexivity|].
    destruct (Memphis.accessTokenTimeout (memphis w)); reflexivity. }
  split; [exact H|].
  unfold factory, producer, guarded. rewrite H. split; reflexivity.
Qed.

Lemma socket_close_deactivates_witness :
  let w := run [AppConnect local_config; Connected; Data (Some granted);
                BrokerConnected 0 7] init in
  Memphis.isConnectionActive (memphis w) = true
  /\ producer (memphis (step Closed w)) (accepting "p1") "orders" "p1"
     = Js.Throw (Js.Error "Connection is dead").
Proof.
  intro w. split; [reflexivity|].
  refine (proj2 (proj2 (socket_close_deactivates w (accepting "p1") _)) _ _).
  reflexivity.
Defined.

Lemma dispatch_connect (cbs : list Net.connectCallback) :
  forall w,
    let w' := fold_left (fun w cb => on_connect cb w) cbs w in
    trace w'
    = (trace w ++ map (fun cb => SocketWrite
                                   (Net.Handshake (Net.cb_username cb)
                                      (Net.cb_connectionToken cb)
                                      (Memphis.connectionId (memphis w)))) cbs)%list
    /\ Net.onData (Memphis.client (memphis w'))
       = (Net.onData (Memphis.client (memphis w)) ++ map Net.cb_promise cbs)%list
    /\ Net.onceConnect (Memphis.client (memphis w'))
       = Net.onceConnect (Memphis.client (memphis w))
    /\ Memphis.connectionId (memphis w') = Memphis.connectionId (memphis w).
Proof.
  induction cbs as [|cb cbs IH]; intros w; cbn [fold_left map].
  - cbn. rewrite !app_nil_r. repeat split.
  - destruct (IH (on_connect cb w)) as (Ht & Hd & Ho & Hi). cbv zeta.
    rewrite Ht, Hd, Ho, Hi. cbn. rewrite <- !app_assoc. repeat split.
Qed.

(** X21.  When the socket reports that it is connected, every callback given
    to [client.connect] since the last such report runs, in order: each
    writes a handshake with the user name and token of its own call and
    the connection id the manager holds at that moment, and each adds its
    own ['data'] handler after those already attached; none is removed. *)
Theorem connected_registers_handlers :
  forall w : World,
    let cbs := Net.onceConnect (Memphis.client (memphis w)) in
    let w' := step Connected w in
    trace w'
    = (trace w ++ map (fun cb => SocketWrite
                                   (Net.Handshake (Net.cb_username cb)
                                      (Net.cb_connectionToken cb)
                                      (Memphis.connectionId (memphis w)))) cbs)%list
    /\ Net.onData (Memphis.client (memphis w'))
       = (Net.onData (Memphis.client (memphis w)) ++ map Net.cb_promise cbs)%list
    /\ Net.onceConnect (Memphis.client (memphis w')) = [].
Proof.
  intros w cbs w'. subst w'. cbn [step]. fold cbs.
  destruct (dispatch_connect cbs
              (this (fun m => Memphis.set_client
                                (Net.removeAllListeners "connect" (Memphis.client m)) m) w))
    as (Ht & Hd & Ho & _).
  cbv zeta in Ht, Hd, Ho. rewrite Ht, Hd, Ho. repeat split.
Qed.






